(** * Cart, checkout and order history of the storefront app

    A shallow embedding of the three screens of the application (the
    cart screen, [Checkout.tsx] and [Notifications.tsx]) and the
    properties of their cart and order logic.

    Conventions of the embedding.
    - A JavaScript string is a [string] holding its UTF-8 bytes, so the
      currency glyph [đ] (U+0111) is the two bytes 196, 145.  Searching,
      comparing and cutting well-formed strings gives the same result on
      bytes as on characters.
    - A JavaScript number is [NaN] or an integer [Num z]: the amounts,
      quantities and time stamps of the application are integers, and
      double arithmetic on integers is exact below 2^53.  The quantity
      of a cart line is an integer of either sign.
    - A handler ([async] function) is a computation over the screen state
      and the outside world (session storage, remote store, transport),
      which either returns or throws. *)

From Stdlib Require Import ZArith Lia Ascii String List Permutation.
From stdpp Require Import base option strings list gmap sorting.

Local Open Scope Z_scope.

(** ** The JavaScript values and built-ins the screens use *)

Module Js.

Inductive number : Type :=
| NaN
| Num (z : Z).

#[global] Instance number_eq_dec : EqDecision number.
Proof. solve_decision. Defined.

Definition add (a b : number) : number :=
  match a, b with
  | Num x, Num y => Num (x + y)
  | _, _ => NaN
  end.

Definition sub (a b : number) : number :=
  match a, b with
  | Num x, Num y => Num (x - y)
  | _, _ => NaN
  end.

Definition mul (a b : number) : number :=
  match a, b with
  | Num x, Num y => Num (x * y)
  | _, _ => NaN
  end.

(** [a > 0] on numbers; every comparison with [NaN] is false. *)
Definition gt0 (a : number) : bool :=
  match a with
  | Num x => 0 <? x
  | NaN => false
  end.

Definition code (c : ascii) : Z := Z.of_N (N_of_ascii c).

Definition bytes (l : list Z) : string :=
  string_of_list_ascii (map (fun z => ascii_of_N (Z.to_N z)) l).

(** [strip_prefix p s] is the rest of [s] after its prefix [p]. *)
Fixpoint strip_prefix (p s : string) : option string :=
  match p, s with
  | EmptyString, _ => Some s
  | String a p', String b s' =>
      if Ascii.eqb a b then strip_prefix p' s' else None
  | String _ _, EmptyString => None
  end.

(** [s.includes(sub)] *)
Fixpoint includes (s sub : string) : bool :=
  match strip_prefix sub s with
  | Some _ => true
  | None =>
      match s with
      | EmptyString => false
      | String _ r => includes r sub
      end
  end.

(** [s.replace(pat, '')] with a string pattern: the first occurrence of
    [pat] is cut out. *)
Fixpoint replace_first (pat s : string) : string :=
  match strip_prefix pat s with
  | Some r => r
  | None =>
      match s with
      | EmptyString => EmptyString
      | String c r => String c (replace_first pat r)
      end
  end.

(** [s.replace(/\./g, '')]: every full stop is cut out. *)
Fixpoint replace_dots (s : string) : string :=
  match s with
  | EmptyString => EmptyString
  | String c r =>
      if Ascii.eqb c "."%char then replace_dots r
      else String c (replace_dots r)
  end.

(** The white space and line terminator characters of ECMAScript, in
    UTF-8: TAB, LF, VT, FF, CR, SP, U+00A0, U+1680, U+2000 to U+200A,
    U+2028, U+2029, U+202F, U+205F, U+3000 and U+FEFF. *)
Definition WhiteSpace : list string :=
  map bytes
    [ [9]; [10]; [11]; [12]; [13]; [32];
      [194; 160];
      [225; 154; 128];
      [226; 128; 128]; [226; 128; 129]; [226; 128; 130]; [226; 128; 131];
      [226; 128; 132]; [226; 128; 133]; [226; 128; 134]; [226; 128; 135];
      [226; 128; 136]; [226; 128; 137]; [226; 128; 138];
      [226; 128; 168]; [226; 128; 169]; [226; 128; 175];
      [226; 129; 159];
      [227; 128; 128];
      [239; 187; 191] ].

(** The rest of [s] after the first of the strings [ws] that [s]
    starts with. *)
Fixpoint strip_any (ws : list string) (s : string) : option string :=
  match ws with
  | [] => None
  | w :: ws' =>
      match strip_prefix w s with
      | Some r => Some r
      | None => strip_any ws' s
      end
  end.

(** The rest of [s] after one leading white space character. *)
Definition strip_white (s : string) : option string :=
  strip_any WhiteSpace s.

Fixpoint trimStart_fuel (fuel : nat) (s : string) : string :=
  match fuel with
  | O => s
  | S f =>
      match strip_white s with
      | Some r => trimStart_fuel f r
      | None => s
      end
  end.

(** [s.trimStart()] *)
Definition trimStart (s : string) : string :=
  trimStart_fuel (String.length s) s.

Definition white_only (s : string) : bool :=
  String.eqb (trimStart s) "".

(** [s.trimEnd()]: the shortest prefix of [s] that leaves only white
    space behind it. *)
Fixpoint trimEnd (s : string) : string :=
  match s with
  | EmptyString => EmptyString
  | String c r => if white_only s then EmptyString else String c (trimEnd r)
  end.

(** [s.trim()] *)
Definition trim (s : string) : string := trimEnd (trimStart s).

(** Truthiness of a string: only the empty string is falsy. *)
Definition truthy (s : string) : bool := negb (String.eqb s "").

Definition digit_val (c : ascii) : option Z :=
  let n := code c in
  if (48 <=? n) && (n <=? 57) then Some (n - 48) else None.

(** The longest run of decimal digits [s] starts with, and the rest. *)
Fixpoint span_digits (s : string) : list Z * string :=
  match s with
  | EmptyString => ([], EmptyString)
  | String c r =>
      match digit_val c with
      | Some d => let '(ds, rest) := span_digits r in (d :: ds, rest)
      | None => ([], s)
      end
  end.

Definition of_digits (ds : list Z) : Z :=
  fold_left (fun acc d => 10 * acc + d) ds 0.

Definition starts_with (p s : string) : bool :=
  match strip_prefix p s with Some _ => true | None => false end.

(** An exponent part: [e] or [E], an optional sign, and a digit. *)
Definition has_exponent (s : string) : bool :=
  match s with
  | String c r =>
      (Ascii.eqb c "e"%char || Ascii.eqb c "E"%char)
      && match r with
         | String "-"%char (String d _) | String "+"%char (String d _)
         | String d _ => bool_decide (is_Some (digit_val d))
         | EmptyString => false
         end
  | EmptyString => false
  end.

(** [parseFloat(s)]: leading white space is skipped, then the longest
    prefix that is a decimal literal is read: a sign, digits, a fraction,
    an exponent part.  Without digits the result is [NaN].  The result
    is [None] for a literal this development does not represent: one
    with an exponent part, one with a fraction digit other than 0, and
    [Infinity]. *)
Definition parseFloat (s : string) : option number :=
  let t := trimStart s in
  let '(sign, u) :=
    match t with
    | String "-"%char r => (-1, r)
    | String "+"%char r => (1, r)
    | _ => (1, t)
    end in
  if starts_with "Infinity" u then None
  else
    let '(ds, rest) := span_digits u in
    let '(fs, rest) :=
      match rest with
      | String "."%char r => span_digits r
      | _ => ([], rest)
      end in
    match ds, fs with
    | [], [] => Some NaN
    | _, _ =>
        if has_exponent rest || negb (forallb (Z.eqb 0) fs) then None
        else Some (Num (sign * of_digits ds))
    end.

Fixpoint to_digits_fuel (fuel : nat) (n : Z) : list Z :=
  match fuel with
  | O => []
  | S f => if n <? 10 then [n] else to_digits_fuel f (n / 10) ++ [n mod 10]
  end.

(** The decimal digits of [n >= 0], most significant first. *)
Definition to_digits (n : Z) : list Z :=
  to_digits_fuel (S (Z.to_nat (Z.log2 n))) n.

Definition digit_char (d : Z) : ascii := ascii_of_N (Z.to_N (48 + d)).

Definition digits_string (n : Z) : string :=
  string_of_list_ascii (map digit_char (to_digits n)).

(** [String(n)] for an integer (decimal notation, as integers below
    10^21 are printed) and for [NaN]. *)
Definition toString (n : number) : string :=
  match n with
  | NaN => "NaN"
  | Num z => if z <? 0 then "-" +:+ digits_string (- z) else digits_string z
  end.

(** Digits in groups of three from the right: [left] is the number of
    digits of [ds]. *)
Fixpoint group3 (sep : string) (left : nat) (ds : string) : string :=
  match ds, left with
  | String c r, S k =>
      String c ((if negb (k =? 0)%nat && (k mod 3 =? 0)%nat then sep else "")
                +:+ group3 sep k r)
  | _, _ => ds
  end.

(** [n.toLocaleString()] in a locale that groups the digits of an integer
    in threes with the separator [sep]. *)
Definition toLocaleString (sep : string) (n : number) : string :=
  match n with
  | NaN => "NaN"
  | Num z =>
      let ds := digits_string (Z.abs z) in
      (if z <? 0 then "-" else "") +:+ group3 sep (String.length ds) ds
  end.

(** [l.sort(compareFn)].  The sort is stable (ECMAScript 2019), and a
    comparator result that is [NaN] counts as [+0]: an element moves in
    front of an earlier one only where [compareFn earlier later > 0].
    For a consistent comparator this fixes the result; it is computed
    here by insertion. *)
Section sort.
Context {A : Type} (compareFn : A -> A -> number).

Fixpoint insert (x : A) (l : list A) : list A :=
  match l with
  | [] => [x]
  | y :: l' => if gt0 (compareFn x y) then y :: insert x l' else x :: l
  end.

Definition sort (l : list A) : list A := fold_right insert [] l.
End sort.

(** An object used as a dictionary whose keys are not array indices:
    [Object.keys] lists the keys in the order they were first set. *)
Definition object (V : Type) : Type := list (string * V).

Section object.
Context {V : Type}.

(** [o[k]], [None] for [undefined] *)
Fixpoint get (o : object V) (k : string) : option V :=
  match o with
  | [] => None
  | (k', v) :: o' => if String.eqb k' k then Some v else get o' k
  end.

(** [o[k] = v] *)
Fixpoint set (o : object V) (k : string) (v : V) : object V :=
  match o with
  | [] => [(k, v)]
  | (k', v') :: o' =>
      if String.eqb k' k then (k', v) :: o' else (k', v') :: set o' k v
  end.

(** [Object.keys(o)] *)
Definition keys (o : object V) : list string := map fst o.
End object.

(** What the runtime's [Date] gives the application: [parse] is the time
    value of [new Date(dateString)], in milliseconds, [NaN] for an
    invalid date; [local t] is the year, the month index (from 0) and
    the day of the month of the time value [t] in the device's time
    zone. *)
Record Date : Type := mkDate
  { parse : string -> number;
    local : Z -> Z * Z * Z }.

Definition getFullYear (D : Date) (date : number) : number :=
  match date with
  | Num t => Num (local D t).1.1
  | NaN => NaN
  end.

Definition getMonth (D : Date) (date : number) : number :=
  match date with
  | Num t => Num (local D t).1.2
  | NaN => NaN
  end.

Definition getDate (D : Date) (date : number) : number :=
  match date with
  | Num t => Num (local D t).2
  | NaN => NaN
  end.

End Js.


(** ** The data model *)

Inductive Category : Type := plants | pots | accessories | combos.

Module CartItem.
Record t : Type := mk
  { id : string;
    productId : string;
    name : string;
    price : string;
    image : string;
    quantity : Z;
    category : option Category }.

Definition with_quantity (item : t) (q : Z) : t :=
  mk (id item) (productId item) (name item) (price item) (image item) q
     (category item).
End CartItem.

Module UserInfo.
Record t : Type := mk
  { id : string;
    fullName : string;
    email : string;
    phoneNumber : string }.
End UserInfo.

(** The user resource of the remote store, [GET /users/{id}]. *)
Module User.
Record t : Type := mk
  { id : string;
    fullName : string;
    email : string;
    phoneNumber : option string;
    cart : option (list CartItem.t) }.

Definition with_cart (u : t) (c : list CartItem.t) : t :=
  mk (id u) (fullName u) (email u) (phoneNumber u) (Some c).
End User.

Inductive ItemType : Type := pot | accessory | plant.

Module Order.
Record CustomerInfo : Type := mkCustomer
  { fullName : string;
    email : string;
    phoneNumber : string;
    address : string }.

(** A cart line with its derived [type]. *)
Record Item : Type := mkItem
  { item : CartItem.t;
    type : ItemType }.

Record t : Type := mk
  { id : string;
    userId : string;
    customerInfo : CustomerInfo;
    items : list Item;
    totalAmount : string;
    shippingFee : string;
    finalAmount : string;
    paymentMethod : string;
    status : string;
    orderDate : string }.
End Order.

(** ** The world outside a screen, and handlers *)

Inductive Request : Type :=
| GetUser (userId : string)
| PatchUserCart (userId : string) (cart : list CartItem.t)
| PostOrder (order : Order.t)
| GetOrders (userId : string).

Record Alert : Type := mkAlert { title : string; message : string }.

(** - [storage]: the [userId] key of the device's session storage;
    - [users], [orders]: the two collections of the remote store;
    - [transport]: the fate of the requests to come, one entry each
      ([false]: the request fails in transit and the store does not see it;
      once the list is used up, requests are delivered);
    - [sent]: the requests issued so far, latest first, each with whether
      it succeeded;
    - [alerts], [routes]: the notices shown and the routes pushed, latest
      first;
    - [clock], [random], [isoClock]: [Date.now()],
      [Math.floor(Math.random() * 1000)] and [new Date().toISOString()]. *)
Record World : Type := mkWorld
  { storage : option string;
    users : gmap string User.t;
    orders : list Order.t;
    transport : list bool;
    sent : list (Request * bool);
    alerts : list Alert;
    routes : list string;
    clock : Z;
    random : Z;
    isoClock : string }.

Module Handler.

Inductive result (A : Type) : Type :=
| Return (a : A)
| Throw.
Arguments Return {A} a.
Arguments Throw {A}.

(** A handler over the state [S] of its screen. *)
Definition M (S A : Type) : Type := S -> World -> result A * S * World.

Definition ret {S A} (a : A) : M S A := fun s w => (Return a, s, w).

Definition bind {S A B} (m : M S A) (k : A -> M S B) : M S B :=
  fun s w =>
    match m s w with
    | (Return a, s', w') => k a s' w'
    | (Throw, s', w') => (Throw, s', w')
    end.

Definition throw {S A} : M S A := fun s w => (Throw, s, w).

(** [try { body } catch (error) { handler }] *)
Definition try_catch {S A} (body handler : M S A) : M S A :=
  fun s w =>
    match body s w with
    | (Return a, s', w') => (Return a, s', w')
    | (Throw, s', w') => handler s' w'
    end.

Definition get_state {S} : M S S := fun s w => (Return s, s, w).
Definition set_state {S} (f : S -> S) : M S unit :=
  fun s w => (Return tt, f s, w).
Definition on_world {S} (f : World -> World) : M S unit :=
  fun s w => (Return tt, s, f w).
Definition ask_world {S A} (f : World -> A) : M S A :=
  fun s w => (Return (f w), s, w).

End Handler.
Import Handler.

Declare Scope handler_scope.
Delimit Scope handler_scope with handler.
Bind Scope handler_scope with M.
Notation "'let*' x ':=' m 'in' k" :=
  (bind m (fun x => k))
  (at level 10, x name, m at level 100, k at level 200) : handler_scope.
Notation "m ';;' k" :=
  (bind m (fun _ => k))
  (at level 100, k at level 200, right associativity) : handler_scope.

(** *** Session storage, the remote store, notices and navigation *)

Definition with_transport (w : World) (t : list bool) : World :=
  mkWorld (storage w) (users w) (orders w) t (sent w) (alerts w) (routes w)
          (clock w) (random w) (isoClock w).

Definition with_sent (w : World) (l : list (Request * bool)) : World :=
  mkWorld (storage w) (users w) (orders w) (transport w) l (alerts w)
          (routes w) (clock w) (random w) (isoClock w).

Definition with_users (w : World) (u : gmap string User.t) : World :=
  mkWorld (storage w) u (orders w) (transport w) (sent w) (alerts w)
          (routes w) (clock w) (random w) (isoClock w).

Definition with_orders (w : World) (o : list Order.t) : World :=
  mkWorld (storage w) (users w) o (transport w) (sent w) (alerts w)
          (routes w) (clock w) (random w) (isoClock w).

Definition with_alerts (w : World) (a : list Alert) : World :=
  mkWorld (storage w) (users w) (orders w) (transport w) (sent w) a
          (routes w) (clock w) (random w) (isoClock w).

Definition with_routes (w : World) (r : list string) : World :=
  mkWorld (storage w) (users w) (orders w) (transport w) (sent w) (alerts w)
          r (clock w) (random w) (isoClock w).

(** What the remote store does with a request that reaches it: the
    store afterwards, [None] where it answers with an error status (a
    user that does not exist). *)
Definition serve (r : Request) (w : World) : option (World) :=
  match r with
  | GetUser userId => users w !! userId ≫= fun _ => Some w
  | PatchUserCart userId cart =>
      users w !! userId ≫= fun u =>
      Some (with_users w (<[userId := User.with_cart u cart]> (users w)))
  | PostOrder order => Some (with_orders w (orders w ++ [order]))
  | GetOrders _ => Some w
  end.

(** One request: it takes the next fate of the transport, reaches the
    store or not, and is recorded in [sent]; a request that fails
    throws. *)
Definition request {S} (r : Request) : M S unit :=
  fun s w =>
    let fate := hd true (transport w) in
    let w1 := with_transport w (tl (transport w)) in
    match (if fate then serve r w1 else None) with
    | Some w2 => (Return tt, s, with_sent w2 ((r, true) :: sent w2))
    | None => (Throw, s, with_sent w1 ((r, false) :: sent w1))
    end.

(** [AsyncStorage.getItem('userId')] *)
Definition getUserId {S} : M S (option string) := ask_world storage.

(** The session id where [userId] is truthy; [None] where [!userId]
    holds: no session id, or an empty one. *)
Definition session (userId : option string) : option string :=
  match userId with
  | Some u => if Js.truthy u then Some u else None
  | None => None
  end.

(** [axios.get(`${baseURL}/users/${userId}`)], the [data] of the response *)
Definition axios_get_user {S} (userId : string) : M S User.t :=
  (request (GetUser userId) ;;
   let* u := ask_world (fun w => users w !! userId) in
   match u with
   | Some u => ret u
   | None => throw
   end)%handler.

(** [axios.patch(`${baseURL}/users/${userId}`, { cart })] *)
Definition axios_patch_cart {S} (userId : string) (cart : list CartItem.t)
  : M S unit :=
  request (PatchUserCart userId cart).

(** [axios.post(`${baseURL}/orders`, order)] *)
Definition axios_post_order {S} (order : Order.t) : M S unit :=
  request (PostOrder order).

(** [axios.get(`${baseURL}/orders?userId=${userId}`)], the [data] of the
    response: the orders of that user, in the order of the collection. *)
Definition axios_get_orders {S} (userId : string) : M S (list Order.t) :=
  (request (GetOrders userId) ;;
   ask_world (fun w =>
     filter (fun o => Order.userId o = userId) (orders w)))%handler.

(** [Alert.alert(title, message)] *)
Definition alert {S} (title message : string) : M S unit :=
  on_world (fun w => with_alerts w (mkAlert title message :: alerts w)).

(** [router.push(path)] *)
Definition router_push {S} (path : string) : M S unit :=
  on_world (fun w => with_routes w (path :: routes w)).

(** ** The cart screen *)

Module Cart.

Record Screen : Type := mkScreen
  { cartItems : list CartItem.t;
    userInfo : option UserInfo.t;
    isLoading : bool }.

Definition setCartItems (c : list CartItem.t) : M Screen unit :=
  set_state (fun s => mkScreen c (userInfo s) (isLoading s)).
Definition setUserInfo (u : UserInfo.t) : M Screen unit :=
  set_state (fun s => mkScreen (cartItems s) (Some u) (isLoading s)).
Definition setIsLoading (b : bool) : M Screen unit :=
  set_state (fun s => mkScreen (cartItems s) (userInfo s) b).

(** [parseFloat(item.price.replace(/\./g, '').replace('đ', ''))] *)
Definition parsePrice (price : string) : option Js.number :=
  Js.parseFloat (Js.replace_first "đ" (Js.replace_dots price)).

(** The value [calculateTotalPrice] puts in [totalPrice]; an effect on
    [cartItems] calls it after every change of the cart.  It is [None]
    where [parseFloat] is. *)
Definition calculateTotalPrice (cartItems : list CartItem.t)
  : option Js.number :=
  fold_left
    (fun sum item =>
       sum ← sum;
       price ← parsePrice (CartItem.price item);
       Some (Js.add sum (Js.mul price (Js.Num (CartItem.quantity item)))))
    cartItems (Some (Js.Num 0)).

Definition fetchCartData : M Screen unit :=
  try_catch
    (let* userId := getUserId in
     match session userId with
     | None => setIsLoading false
     | Some userId =>
         let* data := axios_get_user userId in
         setCartItems (default [] (User.cart data)) ;;
         setUserInfo
           (UserInfo.mk (User.id data) (User.fullName data)
              (User.email data) (default "" (User.phoneNumber data))) ;;
         setIsLoading false
     end)%handler
    (setIsLoading false ;;
     alert "Lỗi" "Không thể tải giỏ hàng. Vui lòng thử lại sau.")%handler.

(** The cart [updateQuantity] writes back. *)
Definition updatedCart (cartItems : list CartItem.t) (itemId : string)
    (newQuantity : Z) : list CartItem.t :=
  if newQuantity =? 0 then
    filter (fun item => CartItem.id item ≠ itemId) cartItems
  else
    map (fun item =>
           if decide (CartItem.id item = itemId)
           then CartItem.with_quantity item newQuantity
           else item)
        cartItems.

Definition updateQuantity (itemId : string) (newQuantity : Z)
  : M Screen unit :=
  try_catch
    (setIsLoading true ;;
     let* userId := getUserId in
     match session userId with
     | None => ret tt
     | Some userId =>
         let* s := get_state in
         axios_patch_cart userId
           (updatedCart (cartItems s) itemId newQuantity) ;;
         fetchCartData
     end)%handler
    (setIsLoading false ;;
     alert "Lỗi" "Không thể cập nhật số lượng. Vui lòng thử lại sau.")%handler.

Definition removeItem (itemId : string) : M Screen unit :=
  try_catch
    (setIsLoading true ;;
     let* userId := getUserId in
     match session userId with
     | None => ret tt
     | Some userId =>
         let* s := get_state in
         axios_patch_cart userId
           (filter (fun item => CartItem.id item ≠ itemId) (cartItems s)) ;;
         fetchCartData
     end)%handler
    (setIsLoading false ;;
     alert "Lỗi" "Không thể xóa sản phẩm. Vui lòng thử lại sau.")%handler.

Definition removeAllItems : M Screen unit :=
  try_catch
    (setIsLoading true ;;
     let* userId := getUserId in
     match session userId with
     | None => ret tt
     | Some userId =>
         axios_patch_cart userId [] ;;
         fetchCartData
     end)%handler
    (setIsLoading false ;;
     alert "Lỗi" "Không thể xóa giỏ hàng. Vui lòng thử lại sau.")%handler.

(** The controls of the cart screen: minus, plus and remove of a
    rendered line, see [renderCartItem], and remove all; the two
    removals run once their dialog is confirmed. *)
Inductive Press : Type :=
| Minus (item : CartItem.t)
| Plus (item : CartItem.t)
| Remove (item : CartItem.t)
| RemoveAll.

Definition onPress (p : Press) : M Screen unit :=
  match p with
  | Minus item =>
      updateQuantity (CartItem.id item) (CartItem.quantity item - 1)
  | Plus item =>
      updateQuantity (CartItem.id item) (CartItem.quantity item + 1)
  | Remove item => removeItem (CartItem.id item)
  | RemoveAll => removeAllItems
  end.

End Cart.

(** ** The checkout screen *)

Module Checkout.

Record Screen : Type := mkScreen
  { cartItems : list CartItem.t;
    userInfo : option UserInfo.t;
    totalPrice : Js.number;
    shippingFee : Js.number;
    isLoading : bool;
    address : string;
    paymentMethod : string;
    dataLoaded : bool }.

(** The screen as it is created; no code changes [shippingFee]. *)
Definition initial : Screen :=
  mkScreen [] None (Js.Num 0) (Js.Num 30000) true "" "COD" false.

Definition setIsLoading (b : bool) : M Screen unit :=
  set_state (fun s =>
    mkScreen (cartItems s) (userInfo s) (totalPrice s) (shippingFee s) b
             (address s) (paymentMethod s) (dataLoaded s)).

Definition parsePrice (price : string) : option Js.number :=
  Js.parseFloat (Js.replace_first "đ" (Js.replace_dots price)).

(** The value [calculateTotalPrice(items)] puts in [totalPrice]. *)
Definition calculateTotalPrice (items : list CartItem.t) : option Js.number :=
  fold_left
    (fun sum item =>
       sum ← sum;
       price ← parsePrice (CartItem.price item);
       Some (Js.add sum (Js.mul price (Js.Num (CartItem.quantity item)))))
    items (Some (Js.Num 0)).

Definition getItemType (productId : string) : ItemType :=
  if Js.includes productId "a" then pot
  else if Js.includes productId "b" then accessory
  else plant.

Section locale.
(** The separator with which [toLocaleString()] groups digits in the
    device's locale. *)
Variable separator : string.

(** The order object [handlePlaceOrder] builds. *)
Definition newOrder (s : Screen) (userId : string) (userInfo : UserInfo.t)
    (now rnd : Z) (iso : string) : Order.t :=
  let formattedTotal :=
    Js.toLocaleString separator (totalPrice s) +:+ "đ" in
  let formattedShipping :=
    Js.toLocaleString separator (shippingFee s) +:+ "đ" in
  let formattedFinal :=
    Js.toLocaleString separator (Js.add (totalPrice s) (shippingFee s))
    +:+ "đ" in
  Order.mk
    ("ord-" +:+ Js.toString (Js.Num now) +:+ Js.toString (Js.Num rnd))
    userId
    (Order.mkCustomer (UserInfo.fullName userInfo) (UserInfo.email userInfo)
       (UserInfo.phoneNumber userInfo) (address s))
    (map (fun item =>
            Order.mkItem item (getItemType (CartItem.productId item)))
         (cartItems s))
    formattedTotal formattedShipping formattedFinal
    (paymentMethod s)
    "Đang xử lý"
    iso.

Definition handlePlaceOrder : M Screen unit :=
  (let* s := get_state in
   if negb (Js.truthy (Js.trim (address s))) then
     alert "Thông báo" "Vui lòng nhập địa chỉ giao hàng"
   else
     setIsLoading true ;;
     try_catch
       (let* userId := getUserId in
        match session userId, userInfo s with
        | Some userId, Some userInfo =>
            let* now := ask_world clock in
            let* rnd := ask_world random in
            let* iso := ask_world isoClock in
            axios_post_order (newOrder s userId userInfo now rnd iso) ;;
            axios_patch_cart userId [] ;;
            setIsLoading false ;;
            alert "Đặt hàng thành công"
              "Cảm ơn bạn đã đặt hàng. Đơn hàng của bạn đang được xử lý."
        | _, _ => router_push "/DangNhap"
        end)
       (setIsLoading false ;;
        alert "Lỗi" "Không thể hoàn tất đơn hàng. Vui lòng thử lại sau."))
  %handler.


End locale.

End Checkout.

(** ** The order history screen *)

Module Notifications.

Record Screen : Type := mkScreen
  { orders : list Order.t;
    loading : bool;
    refreshing : bool }.

Definition setOrders (o : list Order.t) : M Screen unit :=
  set_state (fun s => mkScreen o (loading s) (refreshing s)).
Definition setLoading (b : bool) : M Screen unit :=
  set_state (fun s => mkScreen (orders s) b (refreshing s)).
Definition setRefreshing (b : bool) : M Screen unit :=
  set_state (fun s => mkScreen (orders s) (loading s) b).

Section date.
Variable D : Js.Date.

(** [new Date(b.orderDate) - new Date(a.orderDate)] *)
Definition compareFn (a b : Order.t) : Js.number :=
  Js.sub (Js.parse D (Order.orderDate b)) (Js.parse D (Order.orderDate a)).

Definition fetchOrders : M Screen unit :=
  try_catch
    (let* userId := getUserId in
     match session userId with
     | None => setLoading false ;; setRefreshing false
     | Some userId =>
         let* data := axios_get_orders userId in
         let sortedOrders := Js.sort compareFn data in
         setOrders sortedOrders ;;
         setLoading false ;;
         setRefreshing false
     end)%handler
    (setLoading false ;; setRefreshing false)%handler.

Definition formatDate (dateString : string) : string :=
  let date := Js.parse D dateString in
  Js.toString (Js.getDate D date) +:+ "/" +:+
  Js.toString (Js.add (Js.getMonth D date) (Js.Num 1)) +:+ "/" +:+
  Js.toString (Js.getFullYear D date).

(** [groupOrdersByDate()] on the [orders] of the screen.  A key has
    two [/] in it, so none is an array index and [Object.keys] lists
    the keys as they were added. *)
Definition groupOrdersByDate (orders : list Order.t)
  : Js.object (list Order.t) :=
  fold_left
    (fun grouped order =>
       let date := formatDate (Order.orderDate order) in
       let grouped :=
         match Js.get grouped date with
         | None => Js.set grouped date []
         | Some _ => grouped
         end in
       Js.set grouped date (default [] (Js.get grouped date) ++ [order]))
    orders [].

(** Pull to refresh. *)
Definition onRefresh : M Screen unit :=
  (setRefreshing true ;; fetchOrders)%handler.
End date.

End Notifications.

(** ** A device for the examples

    A phone set to Vietnamese: digits are grouped with a full stop, and
    local time is UTC+7 all year. *)

Module Vietnam.

Definition separator : string := ".".

(** Days from 1970-01-01 to the civil date [y]-[m]-[d]. *)
Definition days_from_civil (y m d : Z) : Z :=
  let y := if m <=? 2 then y - 1 else y in
  let era := y / 400 in
  let yoe := y - era * 400 in
  let doy := (153 * (if 2 <? m then m - 3 else m + 9) + 2) / 5 + d - 1 in
  let doe := yoe * 365 + yoe / 4 - yoe / 100 + doy in
  era * 146097 + doe - 719468.

(** The civil date, month from 1, of a day counted from 1970-01-01. *)
Definition civil_from_days (z : Z) : Z * Z * Z :=
  let z := z + 719468 in
  let era := z / 146097 in
  let doe := z - era * 146097 in
  let yoe := (doe - doe / 1460 + doe / 36524 - doe / 146096) / 365 in
  let doy := doe - (365 * yoe + yoe / 4 - yoe / 100) in
  let mp := (5 * doy + 2) / 153 in
  let d := doy - (153 * mp + 2) / 5 + 1 in
  let m := if mp <? 10 then mp + 3 else mp - 9 in
  (if m <=? 2 then yoe + era * 400 + 1 else yoe + era * 400, m, d).

(** Exactly [n] digits, and the rest. *)
Fixpoint read (n : nat) (acc : Z) (s : string) : option (Z * string) :=
  match n, s with
  | O, _ => Some (acc, s)
  | S k, String c r => d ← Js.digit_val c; read k (10 * acc + d) r
  | S _, EmptyString => None
  end.

(** The time value of a time stamp [YYYY-MM-DDTHH:mm:ss.sssZ], the form
    [toISOString] writes; any other string is taken for an invalid date. *)
Definition parse (s : string) : Js.number :=
  default Js.NaN
    ('(y, s) ← read 4 0 s; s ← Js.strip_prefix "-" s;
     '(mo, s) ← read 2 0 s; s ← Js.strip_prefix "-" s;
     '(d, s) ← read 2 0 s; s ← Js.strip_prefix "T" s;
     '(h, s) ← read 2 0 s; s ← Js.strip_prefix ":" s;
     '(mi, s) ← read 2 0 s; s ← Js.strip_prefix ":" s;
     '(sec, s) ← read 2 0 s; s ← Js.strip_prefix "." s;
     '(ms, s) ← read 3 0 s; s ← Js.strip_prefix "Z" s;
     if String.eqb s "" && (1 <=? mo) && (mo <=? 12) && (1 <=? d)
        && (d <=? 31) && (h <=? 23) && (mi <=? 59) && (sec <=? 59)
     then Some (Js.Num (days_from_civil y mo d * 86400000 + h * 3600000
                        + mi * 60000 + sec * 1000 + ms))
     else None).

Definition local (t : Z) : Z * Z * Z :=
  let '(y, m, d) := civil_from_days ((t + 7 * 3600000) / 86400000) in
  (y, m - 1, d).

Definition date : Js.Date := Js.mkDate parse local.

End Vietnam.

(** ** Data for the examples *)

Module Sample.

Definition rose : CartItem.t :=
  CartItem.mk "1" "p-17" "Hoa hồng" "10.000đ" "rose.png" 2 (Some plants).

Definition bowl : CartItem.t :=
  CartItem.mk "2" "a-03" "Chậu gốm" "5.000đ" "bowl.png" 3 (Some pots).

Definition cart : list CartItem.t := [rose; bowl].


Definition lan : User.t :=
  User.mk "u1" "Lan" "lan@example.com" (Some "0900000000") (Some cart).

Definition lanInfo : UserInfo.t :=
  UserInfo.mk "u1" "Lan" "lan@example.com" "0900000000".

(** Lan is logged in; every request is delivered. *)
Definition world : World :=
  mkWorld (Some "u1") {[ "u1" := lan ]} [] [] [] [] []
          1714644000000 42 "2024-05-02T10:00:00.000Z".

(** The same, with the next request lost in transit. *)
Definition offline : World := with_transport world [false].

Definition order (id date : string) : Order.t :=
  Order.mk id "u1"
    (Order.mkCustomer "Lan" "lan@example.com" "0900000000" "123 Main")
    [Order.mkItem rose plant] "20.000đ" "30.000đ" "50.000đ" "COD"
    "Đang xử lý" date.

(** Three orders as the store lists them: the first and the last were
    placed at the same instant, the second one a day later. *)
Definition first : Order.t := order "ord-1" "2024-05-01T03:00:00.000Z".
Definition second : Order.t := order "ord-2" "2024-05-02T10:00:00.000Z".
Definition third : Order.t := order "ord-3" "2024-05-01T03:00:00.000Z".

Definition history : World := with_orders world [first; second; third].

(** The history screen and the cart screen as they are before they load. *)
Definition historyScreen : Notifications.Screen :=
  Notifications.mkScreen [] true false.

Definition cartScreen : Cart.Screen :=
  Cart.mkScreen cart (Some lanInfo) false.

Definition checkout : Checkout.Screen :=
  Checkout.mkScreen cart (Some lanInfo) (Js.Num 35000) (Js.Num 30000)
    false "123 Main" "COD" true.

End Sample.

(** ** The vocabulary of the properties *)

Module Spec.

(** *** Strings and amounts *)

(** [s] has [sub] as a substring. *)
Definition contains (s sub : string) : Prop :=
  exists pre post, s = pre +:+ sub +:+ post.

(** A string that is white space from end to end, the empty string
    included. *)
Inductive whitespace_only : string -> Prop :=
| whitespace_nil : whitespace_only ""
| whitespace_cons w s :
    w ∈ Js.WhiteSpace -> whitespace_only s -> whitespace_only (w +:+ s).


Definition is_digit (d : Z) : Prop := 0 <= d <= 9.

(** The string of the digits [ds]. *)
Definition dstr (ds : list Z) : string :=
  string_of_list_ascii (map Js.digit_char ds).

(** *** Carts *)

(** The lines of a cart other than those with the id [itemId], in order. *)
Definition others (itemId : string) (c : list CartItem.t) : list CartItem.t :=
  filter (fun item => CartItem.id item ≠ itemId) c.

(** One step of the [reduce] in [calculateTotalPrice]. *)
Definition line_step (sum : option Js.number) (item : CartItem.t)
  : option Js.number :=
  sum ← sum;
  price ← Cart.parsePrice (CartItem.price item);
  Some (Js.add sum (Js.mul price (Js.Num (CartItem.quantity item)))).


(** Every line of the cart has a quantity of 1 or more. *)
Definition positive (c : list CartItem.t) : Prop :=
  Forall (fun item => 1 <= CartItem.quantity item) c.

(** Every cart of the remote store has only such lines. *)
Definition carts_positive (users : gmap string User.t) : Prop :=
  forall userId user c,
    users !! userId = Some user -> User.cart user = Some c -> positive c.

(** The control pressed is one the cart screen shows: a control of a
    line is rendered for a line of [cartItems], the control that removes
    all for a cart that is not empty. *)
Definition shown (s : Cart.Screen) (p : Cart.Press) : Prop :=
  match p with
  | Cart.Minus item | Cart.Plus item | Cart.Remove item =>
      item ∈ Cart.cartItems s
  | Cart.RemoveAll => Cart.cartItems s <> []
  end.

(** *** Runs of a handler *)

(** The world and the screen a handler leaves behind. *)
Definition world_after {S A} (m : M S A) (s : S) (w : World) : World :=
  (m s w).2.

Definition screen_after {S A} (m : M S A) (s : S) (w : World) : S :=
  (m s w).1.2.

(** The next [n] requests are delivered. *)
Definition delivered (n : nat) (w : World) : Prop :=
  Forall (fun fate => fate = true) (take n (transport w)).

(** The notices of the checkout screen: for a missing address, for a
    placement that failed, and for an order that was placed. *)
Definition ValidationError : Alert :=
  mkAlert "Thông báo" "Vui lòng nhập địa chỉ giao hàng".

Definition PlacementError : Alert :=
  mkAlert "Lỗi" "Không thể hoàn tất đơn hàng. Vui lòng thử lại sau.".

Definition PlacementDone : Alert :=
  mkAlert "Đặt hàng thành công"
    "Cảm ơn bạn đã đặt hàng. Đơn hàng của bạn đang được xử lý.".

(** *** The order history *)

(** The order was placed at the time value [t]. *)
Definition dated (D : Js.Date) (t : Z) (o : Order.t) : Prop :=
  Js.parse D (Order.orderDate o) = Js.Num t.

#[global] Instance dated_dec D t o : Decision (dated D t o).
Proof. unfold dated. apply _. Defined.

(** The order date of the order is a valid date. *)
Definition valid_date (D : Js.Date) (o : Order.t) : Prop :=
  exists t, dated D t o.

(** The time value of the order date, 0 for an invalid date. *)
Definition time (D : Js.Date) (o : Order.t) : Z :=
  match Js.parse D (Order.orderDate o) with
  | Js.Num t => t
  | Js.NaN => 0
  end.

(** Keys do not grow along the list. *)
Definition descending {A : Type} (key : A -> Z) : list A -> Prop :=
  StronglySorted (fun a b => key b <= key a).

(** The calendar day of an order, as the history screen prints it. *)
Definition day (D : Js.Date) (o : Order.t) : string :=
  Notifications.formatDate D (Order.orderDate o).

(** The strings of [l] without repetition, each where it comes first. *)
Fixpoint first_seen (l : list string) : list string :=
  match l with
  | [] => []
  | x :: l' => x :: filter (fun y => y ≠ x) (first_seen l')
  end.

(** *** More on runs *)

(** The next request, one about the user [userId], fails: it is lost in
    transit, or the store has no such user. *)
Definition refused (w : World) (userId : string) : Prop :=
  hd true (transport w) = false \/ users w !! userId = None.

(** The notices of the cart screen. *)
Definition CartLoadError : Alert :=
  mkAlert "Lỗi" "Không thể tải giỏ hàng. Vui lòng thử lại sau.".

Definition QuantityError : Alert :=
  mkAlert "Lỗi" "Không thể cập nhật số lượng. Vui lòng thử lại sau.".

Definition RemoveError : Alert :=
  mkAlert "Lỗi" "Không thể xóa sản phẩm. Vui lòng thử lại sau.".

Definition ClearError : Alert :=
  mkAlert "Lỗi" "Không thể xóa giỏ hàng. Vui lòng thử lại sau.".

(** Three outcomes of a handler [m] of the cart screen that writes the
    cart [cart] of the user [userId] back.

    [written]: the write and the reload that follows are delivered; the
    store has the cart, and the screen shows it.
    [write_failed]: the write fails; store and cart on the screen are as
    they were, and [notice] is shown.
    [reload_failed]: the write is delivered and the reload fails; the
    store has the cart, the screen still shows the cart it had, and the
    notice of a cart that could not be loaded is shown. *)
Definition written (m : M Cart.Screen unit) (s : Cart.Screen) (w : World)
    (userId : string) (user : User.t) (cart : list CartItem.t) : Prop :=
  users (world_after m s w) = <[userId := User.with_cart user cart]> (users w)
  /\ sent (world_after m s w)
     = (GetUser userId, true) :: (PatchUserCart userId cart, true) :: sent w
  /\ screen_after m s w
     = Cart.mkScreen cart
         (Some (UserInfo.mk (User.id user) (User.fullName user)
                  (User.email user) (default "" (User.phoneNumber user))))
         false
  /\ alerts (world_after m s w) = alerts w.

Definition write_failed (m : M Cart.Screen unit) (s : Cart.Screen) (w : World)
    (userId : string) (cart : list CartItem.t) (notice : Alert) : Prop :=
  users (world_after m s w) = users w
  /\ sent (world_after m s w) = (PatchUserCart userId cart, false) :: sent w
  /\ screen_after m s w
     = Cart.mkScreen (Cart.cartItems s) (Cart.userInfo s) false
  /\ alerts (world_after m s w) = notice :: alerts w.

Definition reload_failed (m : M Cart.Screen unit) (s : Cart.Screen)
    (w : World) (userId : string) (user : User.t) (cart : list CartItem.t)
  : Prop :=
  users (world_after m s w) = <[userId := User.with_cart user cart]> (users w)
  /\ sent (world_after m s w)
     = (GetUser userId, false) :: (PatchUserCart userId cart, true) :: sent w
  /\ screen_after m s w
     = Cart.mkScreen (Cart.cartItems s) (Cart.userInfo s) false
  /\ alerts (world_after m s w) = CartLoadError :: alerts w.

(** The profile the screens keep of a user resource. *)
Definition profile (user : User.t) : UserInfo.t :=
  UserInfo.mk (User.id user) (User.fullName user) (User.email user)
    (default "" (User.phoneNumber user)).

(** The world at a later moment: the clocks and the random source have
    other readings. *)
Definition later (w : World) (now rnd : Z) (iso : string) : World :=
  mkWorld (storage w) (users w) (orders w) (transport w) (sent w) (alerts w)
          (routes w) now rnd iso.

(** The orders of the user in the store, as the store lists them. *)
Definition placed_by (w : World) (userId : string) : list Order.t :=
  filter (fun o => Order.userId o = userId) (orders w).

(** A run of the handler [m] of the history screen settles: it ends
    with both flags of the screen cleared, shows no notice, pushes no
    route and leaves session and store as they are. *)
Definition settles (m : M Notifications.Screen unit)
    (s : Notifications.Screen) (w : World) : Prop :=
  Notifications.loading (screen_after m s w) = false
  /\ Notifications.refreshing (screen_after m s w) = false
  /\ alerts (world_after m s w) = alerts w
  /\ routes (world_after m s w) = routes w
  /\ storage (world_after m s w) = storage w
  /\ users (world_after m s w) = users w
  /\ orders (world_after m s w) = orders w.

(** The order date of the order is not a valid date. *)
Definition undated (D : Js.Date) (o : Order.t) : Prop :=
  Js.parse D (Order.orderDate o) = Js.NaN.

#[global] Instance undated_dec D o : Decision (undated D o).
Proof. unfold undated. apply _. Defined.

End Spec.
Import Spec.

(** * Properties *)

(** ** Strings *)

#[local] Arguments String.append !_ _ : simpl nomatch.

Module JsFacts.

Lemma strip_prefix_Some p s r :
  Js.strip_prefix p s = Some r <-> s = p +:+ r.
Proof.
  revert s. induction p as [|a p IH]; intros s; simpl.
  - split; congruence.
  - destruct s as [|b s]; [split; discriminate|].
    destruct (Ascii.eqb_spec a b) as [->|Hab].
    + rewrite IH. split; congruence.
    + split; congruence.
Qed.

Lemma strip_prefix_app p r : Js.strip_prefix p (p +:+ r) = Some r.
Proof. by apply strip_prefix_Some. Qed.

Lemma includes_unfold s sub :
  Js.includes s sub =
  match Js.strip_prefix sub s with
  | Some _ => true
  | None => match s with
            | EmptyString => false
            | String _ r => Js.includes r sub
            end
  end.
Proof. by destruct s. Qed.

Lemma includes_contains s sub :
  Js.includes s sub = true <-> contains s sub.
Proof.
  split.
  - induction s as [|c s IH]; rewrite includes_unfold;
      destruct (Js.strip_prefix sub _) as [r|] eqn:E; try discriminate.
    + intros _. exists "", r. simpl. by apply strip_prefix_Some.
    + intros _. exists "", r. simpl. by apply strip_prefix_Some.
    + intros H. destruct (IH H) as (pre & post & ->).
      by exists (String c pre), post.
  - intros (pre & post & ->). induction pre as [|c pre IH].
    + rewrite includes_unfold. simpl. by rewrite strip_prefix_app.
    + rewrite includes_unfold.
      by destruct (Js.strip_prefix sub _).
Qed.

Lemma includes_not_contains s sub :
  Js.includes s sub = false <-> ~ contains s sub.
Proof.
  rewrite <- includes_contains. by destruct (Js.includes s sub).
Qed.

End JsFacts.
Import JsFacts.

(** ** Classification of order items *)

Module CheckoutClassify.
Import Checkout.

Lemma getItemType_a productId :
  contains productId "a" -> getItemType productId = pot.
Proof.
  intros Ha. apply includes_contains in Ha. unfold getItemType. by rewrite Ha.
Qed.

Lemma getItemType_b productId :
  ~ contains productId "a" -> contains productId "b" ->
  getItemType productId = accessory.
Proof.
  intros Ha Hb. apply includes_not_contains in Ha.
  apply includes_contains in Hb. unfold getItemType. by rewrite Ha, Hb.
Qed.

Lemma getItemType_other productId :
  ~ contains productId "a" -> ~ contains productId "b" ->
  getItemType productId = plant.
Proof.
  intros Ha Hb. apply includes_not_contains in Ha, Hb.
  unfold getItemType. by rewrite Ha, Hb.
Qed.

(** C9, as amended: [getItemType] is a function from product ids to the
    three item types; a product id that contains "a" is a pot, one that
    contains "b" and no "a" is an accessory, and every other one is a
    plant. *)
Theorem getItemType_rule :
  (forall productId, contains productId "a" -> getItemType productId = pot)
  /\ (forall productId,
        ~ contains productId "a" -> contains productId "b" ->
        getItemType productId = accessory)
  /\ (forall productId,
        ~ contains productId "a" -> ~ contains productId "b" ->
        getItemType productId = plant).
Proof.
  split; [|split]; intros productId.
  - apply getItemType_a.
  - apply getItemType_b.
  - apply getItemType_other.
Qed.

Lemma getItemType_rule_witness :
  getItemType "pa1" = pot /\ getItemType "xb2" = accessory
  /\ getItemType "x3" = plant.
Proof.
  destruct getItemType_rule as (Ha & Hb & Hc). split; [|split].
  - apply Ha. by exists "p", "1".
  - apply Hb.
    + apply includes_not_contains. reflexivity.
    + by exists "x", "2".
  - apply Hc; apply includes_not_contains; reflexivity.
Defined.

(** C9 as it is stated fails: "ab" contains "b" and is a pot, not an
    accessory. *)
Lemma getItemType_b_counterexample :
  contains "ab" "b" /\ getItemType "ab" = pot
  /\ getItemType "ab" <> accessory.
Proof.
  split; [by exists "a", ""|]. split; [reflexivity|discriminate].
Qed.

(** C10: a product id that contains both "a" and "b" is a pot, the test
    for "a" coming first; and the tests tell the case of letters apart,
    so that a product id with "A" or "B" in it but neither "a" nor "b"
    is a plant. *)
Theorem getItemType_precedence_case :
  (forall productId,
      contains productId "a" -> contains productId "b" ->
      getItemType productId = pot)
  /\ (forall productId,
        contains productId "A" \/ contains productId "B" ->
        ~ contains productId "a" -> ~ contains productId "b" ->
        getItemType productId = plant).
Proof.
  split; intros productId.
  - intros Ha _. by apply getItemType_a.
  - intros _ Ha Hb. by apply getItemType_other.
Qed.

Lemma getItemType_precedence_case_witness :
  getItemType "b-a" = pot /\ getItemType "AB-7" = plant.
Proof.
  destruct getItemType_precedence_case as (Hab & HAB). split.
  - apply Hab; [by exists "b-", ""|by exists "", "-a"].
  - apply HAB.
    + left. by exists "", "B-7".
    + apply includes_not_contains. reflexivity.
    + apply includes_not_contains. reflexivity.
Defined.

End CheckoutClassify.

(** ** Quantity updates on the cart *)

Module CartQuantity.
Import Cart.

Lemma updatedCart_zero cartItems itemId :
  updatedCart cartItems itemId 0 = others itemId cartItems.
Proof. reflexivity. Qed.

(** [updateQuantity] itself takes any new quantity but 0 as it is; the
    controls of the screen never pass a negative one to it. *)
Example updatedCart_negative :
  updatedCart [Sample.rose] "1" (-1)
  = [CartItem.with_quantity Sample.rose (-1)].
Proof. reflexivity. Qed.

(** C4: with the new quantity 0 the cart written back has no line with
    the id [itemId], and its lines are the other lines of the cart, each
    as it was and in the order they had. *)
Theorem updatedCart_zero_removes
    (cartItems : list CartItem.t) (itemId : string) :
  let result := updatedCart cartItems itemId 0 in
  (forall item, item ∈ result -> CartItem.id item ≠ itemId)
  /\ (forall item,
        item ∈ cartItems -> CartItem.id item ≠ itemId -> item ∈ result)
  /\ result `sublist_of` cartItems
  /\ others itemId result = others itemId cartItems.
Proof.
  simpl. rewrite updatedCart_zero. unfold others. repeat split.
  - intros item Hin. by apply list_elem_of_filter in Hin as [? _].
  - intros item Hin Hid. by apply list_elem_of_filter.
  - apply sublist_filter.
  - apply list_filter_filter_l. tauto.
Qed.

Lemma updatedCart_zero_removes_witness :
  Sample.bowl ∈ updatedCart Sample.cart "1" 0
  /\ forall item,
       item ∈ updatedCart Sample.cart "1" 0 -> CartItem.id item ≠ "1".
Proof.
  destruct (updatedCart_zero_removes Sample.cart "1") as (Hno & Hkept & _).
  split; [|exact Hno].
  apply Hkept; [|discriminate]. right. left.
Defined.

End CartQuantity.

(** ** Prices and totals *)

Module Prices.

Ltac digit_cases d H :=
  assert (d = 0 \/ d = 1 \/ d = 2 \/ d = 3 \/ d = 4 \/ d = 5 \/ d = 6
          \/ d = 7 \/ d = 8 \/ d = 9) as H by (unfold is_digit in *; lia);
  repeat destruct H as [H|H]; subst d.

Lemma of_digits_snoc ds d :
  Js.of_digits (ds ++ [d]) = 10 * Js.of_digits ds + d.
Proof. unfold Js.of_digits. by rewrite fold_left_app. Qed.

Lemma to_digits_fuel_spec fuel n :
  0 <= n < 2 ^ Z.of_nat (S fuel) ->
  let ds := Js.to_digits_fuel (S fuel) n in
  Js.of_digits ds = n /\ Forall is_digit ds /\ ds <> [].
Proof.
  revert n. induction fuel as [|fuel IH]; intros n Hn.
  - change (2 ^ Z.of_nat 1) with 2 in Hn.
    assert ((n <? 10) = true) as Hlt by lia. simpl. rewrite Hlt.
    split; [unfold Js.of_digits; simpl; lia|split; [|done]].
    constructor; [|constructor]. unfold is_digit. lia.
  - change (Js.to_digits_fuel (S (S fuel)) n)
      with (if (n <? 10) then [n]
            else Js.to_digits_fuel (S fuel) (n / 10) ++ [n mod 10]).
    destruct (Z.ltb_spec n 10) as [Hlt|Hge].
    + split; [unfold Js.of_digits; simpl; lia|split; [|done]].
      constructor; [|constructor]. unfold is_digit. lia.
    + assert (0 <= n / 10 < 2 ^ Z.of_nat (S fuel)) as Hdiv.
      { split; [apply Z.div_pos; lia|].
        apply Z.div_lt_upper_bound; [lia|].
        rewrite (Nat2Z.inj_succ (S fuel)), Z.pow_succ_r in Hn by lia. lia. }
      destruct (IH _ Hdiv) as (Hval & Hall & Hne). split; [|split].
      * rewrite of_digits_snoc, Hval.
        pose proof (Z.div_mod n 10). lia.
      * apply Forall_app. split; [exact Hall|].
        constructor; [|constructor]. pose proof (Z.mod_pos_bound n 10).
        unfold is_digit. lia.
      * intros Heq. by apply app_eq_nil in Heq as [_ ?].
Qed.

Lemma to_digits_spec n :
  0 <= n ->
  Js.of_digits (Js.to_digits n) = n /\ Forall is_digit (Js.to_digits n)
  /\ Js.to_digits n <> [].
Proof.
  intros Hn. unfold Js.to_digits. apply to_digits_fuel_spec.
  destruct (Z.eq_dec n 0) as [->|Hnz].
  { change (2 ^ Z.of_nat (S (Z.to_nat (Z.log2 0)))) with 2. lia. }
  rewrite Nat2Z.inj_succ, Z2Nat.id by apply Z.log2_nonneg.
  pose proof (Z.log2_spec n). lia.
Qed.

Lemma digit_val_char d : is_digit d -> Js.digit_val (Js.digit_char d) = Some d.
Proof. intros Hd. digit_cases d H; reflexivity. Qed.

Lemma span_digits_dstr ds :
  Forall is_digit ds -> Js.span_digits (dstr ds) = (ds, "").
Proof.
  induction 1 as [|d ds Hd _ IH]; [done|].
  unfold dstr in *. simpl. rewrite digit_val_char by done. by rewrite IH.
Qed.


Lemma length_dstr ds : String.length (dstr ds) = length ds.
Proof.
  unfold dstr. induction ds as [|d ds IH]; simpl; [done|by rewrite IH].
Qed.



Lemma parseFloat_dstr ds :
  Forall is_digit ds -> ds <> [] ->
  Js.parseFloat (dstr ds) = Some (Js.Num (Js.of_digits ds)).
Proof.
  intros Hds Hne. destruct Hds as [|d ds Hd Hds]; [done|].
  pose proof (span_digits_dstr (d :: ds) (Forall_cons_2 _ _ _ Hd Hds)) as Hspan.
  unfold Js.parseFloat.
  assert (Js.trimStart (dstr (d :: ds)) = dstr (d :: ds)) as ->.
  { unfold Js.trimStart, dstr. simpl. by digit_cases d H. }
  assert (exists c r, dstr (d :: ds) = String c r /\ c <> "-"%char
                      /\ c <> "+"%char
                      /\ Js.starts_with "Infinity" (String c r) = false)
    as (c & r & Heq & Hm & Hp & Hinf).
  { exists (Js.digit_char d), (dstr ds). unfold dstr. simpl.
    by digit_cases d H. }
  rewrite Heq in *.
  assert ((match String c r with
           | String "-"%char r0 => (-1, r0)
           | String "+"%char r0 => (1, r0)
           | _ => (1, String c r)
           end) = (1, String c r)) as ->.
  { destruct c as [[] [] [] [] [] [] [] []]; congruence. }
  rewrite Hinf, Hspan. simpl.
  f_equal. f_equal. lia.
Qed.


End Prices.

Module Totals.
Import Prices.

Lemma Cart_total items :
  Cart.calculateTotalPrice items = fold_left line_step items (Some (Js.Num 0)).
Proof. reflexivity. Qed.

Lemma Checkout_total items :
  Checkout.calculateTotalPrice items = Cart.calculateTotalPrice items.
Proof. reflexivity. Qed.


Lemma fold_None items : fold_left line_step items None = None.
Proof. induction items as [|item items IH]; [done|apply IH]. Qed.

Lemma fold_NaN items t :
  fold_left line_step items (Some Js.NaN) <> Some (Js.Num t).
Proof.
  induction items as [|item items IH]; [done|]. simpl.
  destruct (Cart.parsePrice _) as [[|p]|]; simpl; [apply IH..|].
  by rewrite fold_None.
Qed.








End Totals.

(** ** White space and [trim] *)

Module Blank.

Lemma append_nil_r s : s +:+ "" = s.
Proof. induction s as [|c s IH]; simpl; [done|by rewrite IH]. Qed.

Lemma append_assoc s1 s2 s3 : (s1 +:+ s2) +:+ s3 = s1 +:+ s2 +:+ s3.
Proof. induction s1 as [|c s1 IH]; simpl; [done|by rewrite IH]. Qed.

Lemma length_append s1 s2 :
  String.length (s1 +:+ s2) = (String.length s1 + String.length s2)%nat.
Proof. induction s1 as [|c s1 IH]; simpl; [done|by rewrite IH]. Qed.

Lemma strip_any_Some ws s r :
  Js.strip_any ws s = Some r -> exists w, w ∈ ws /\ s = w +:+ r.
Proof.
  induction ws as [|w ws IH]; simpl; [done|].
  destruct (Js.strip_prefix w s) as [r'|] eqn:E.
  - intros [= ->]. exists w. split; [left|by apply strip_prefix_Some].
  - intros H. destruct (IH H) as (w' & Hin & Heq).
    exists w'. split; [by right|done].
Qed.

Lemma strip_white_Some s r :
  Js.strip_white s = Some r -> exists w, w ∈ Js.WhiteSpace /\ s = w +:+ r.
Proof. apply strip_any_Some. Qed.

Lemma strip_white_app w r :
  w ∈ Js.WhiteSpace -> Js.strip_white (w +:+ r) = Some r.
Proof.
  unfold Js.WhiteSpace. simpl. intros H.
  repeat (apply elem_of_cons in H as [->|H]; [reflexivity|]).
  by apply elem_of_nil in H.
Qed.

Lemma white_space_length w : w ∈ Js.WhiteSpace -> (0 < String.length w)%nat.
Proof.
  unfold Js.WhiteSpace. simpl. intros H.
  repeat (apply elem_of_cons in H as [->|H]; [simpl; lia|]).
  by apply elem_of_nil in H.
Qed.

Lemma trimStart_fuel_spec n s :
  (String.length s <= n)%nat ->
  exists ws,
    whitespace_only ws /\ s = ws +:+ Js.trimStart_fuel n s
    /\ Js.strip_white (Js.trimStart_fuel n s) = None.
Proof.
  revert s. induction n as [|n IH]; intros s Hlen.
  - destruct s; [|simpl in Hlen; lia].
    exists "". split; [constructor|done].
  - simpl. destruct (Js.strip_white s) as [r|] eqn:E.
    + destruct (strip_white_Some _ _ E) as (w & Hw & ->).
      pose proof (white_space_length w Hw). rewrite length_append in Hlen.
      destruct (IH r) as (ws & Hws & Heq & Hnone); [lia|].
      exists (w +:+ ws). split; [by constructor|].
      split; [|done]. rewrite append_assoc. by rewrite <- Heq.
    + exists "". split; [constructor|done].
Qed.

Lemma trimStart_fuel_blank n s :
  whitespace_only s -> (String.length s <= n)%nat ->
  Js.trimStart_fuel n s = "".
Proof.
  intros Hs. revert n. induction Hs as [|w s Hw Hs IH]; intros n Hlen.
  - by destruct n.
  - pose proof (white_space_length w Hw). rewrite length_append in Hlen.
    destruct n as [|n]; [lia|]. simpl.
    rewrite strip_white_app by done. apply IH. lia.
Qed.

Lemma white_only_spec s : Js.white_only s = true <-> whitespace_only s.
Proof.
  unfold Js.white_only, Js.trimStart. rewrite String.eqb_eq. split.
  - intros H.
    destruct (trimStart_fuel_spec (String.length s) s) as (ws & Hws & Heq & _);
      [done|].
    rewrite H, append_nil_r in Heq. by subst.
  - intros H. by apply trimStart_fuel_blank.
Qed.

Lemma trimEnd_empty t :
  Js.trimEnd t = "" <-> t = "" \/ Js.white_only t = true.
Proof.
  destruct t as [|c t]; simpl; [tauto|].
  destruct (Js.white_only (String c t)); split; try done; tauto || auto.
  intros [?|?]; done.
Qed.

(** [!s.trim()] holds exactly for the strings that are white space
    only. *)
Lemma trim_blank s :
  Js.truthy (Js.trim s) = false <-> whitespace_only s.
Proof.
  unfold Js.truthy. rewrite negb_false_iff, String.eqb_eq.
  unfold Js.trim. rewrite trimEnd_empty. split.
  - intros H.
    destruct (trimStart_fuel_spec (String.length s) s)
      as (ws & Hws & Heq & Hnone); [done|].
    fold (Js.trimStart s) in *.
    assert (Js.trimStart s = "") as Ht.
    { destruct H as [H|H]; [done|].
      apply white_only_spec in H. destruct H as [|w r Hw _]; [done|].
      by rewrite strip_white_app in Hnone. }
    rewrite Ht, append_nil_r in Heq. by subst.
  - intros H. left. by apply trimStart_fuel_blank.
Qed.

End Blank.

(** ** Running handlers *)

Module Run.

Lemma app_same_tail {A} (l m : list A) : m = l ++ m -> l = [].
Proof.
  intros H. apply (f_equal length) in H. rewrite length_app in H.
  destruct l; [done|simpl in H; lia].
Qed.

Lemma cons_same_tail {A} (x : A) (l m : list A) :
  x :: m = l ++ m -> l = [x].
Proof. intros H. by apply (app_inv_tail m [x] l) in H. Qed.

Lemma cons2_same_tail {A} (x y : A) (l m : list A) :
  x :: y :: m = l ++ m -> l = [x; y].
Proof. intros H. by apply (app_inv_tail m [x; y] l) in H. Qed.

Lemma cons_neq_self {A} (x : A) (l : list A) : l <> x :: l.
Proof. intros H. apply (f_equal length) in H. simpl in H. lia. Qed.

Lemma delivered_S n w :
  delivered (S n) w ->
  hd true (transport w) = true
  /\ delivered n (with_transport w (tail (transport w))).
Proof.
  unfold delivered. destruct w as [? ? ? t ? ? ? ? ? ?]. simpl.
  destruct t as [|b t]; simpl.
  - intros _. split; [done|]. by destruct n.
  - intros H. by apply Forall_cons in H.
Qed.

(** The requests a run added to [sent], from what [sent] is before and
    after. *)
Ltac issued_from H :=
  first [ apply cons2_same_tail in H
        | apply cons_same_tail in H
        | apply app_same_tail in H ];
  subst.

(** Runs the handler in the equation [H] along every path it can take. *)
Ltac run_in H :=
  repeat first
    [ progress
        (unfold bind, try_catch, ret, throw, get_state, set_state, on_world,
           ask_world, alert, router_push, getUserId, axios_post_order,
           axios_patch_cart, axios_get_user, axios_get_orders, request,
           serve in H;
         simpl in * )
    | progress simplify_eq
    | match goal with
      | Hx : context [?x ≫= _] |- _ => destruct x eqn:?; simpl in Hx
      end
    | case_match ].

End Run.
Import Run.

(** ** Placing an order *)

Module CheckoutPlacement.
Import Checkout.

#[local] Arguments newOrder : simpl never.

(** C1: where a run of [handlePlaceOrder] issues the request that
    creates the order and that request fails, no other request is
    issued, so the cart is not cleared; the users and the orders of the
    remote store are as before, the cart of the screen is as before, and
    the notice of a failed placement is shown. *)
Theorem handlePlaceOrder_post_fails
    (separator : string) (s : Screen) (w : World) (order : Order.t)
    (issued : list (Request * bool)) :
  sent (world_after (handlePlaceOrder separator) s w) = issued ++ sent w ->
  (PostOrder order, false) ∈ issued ->
  issued = [(PostOrder order, false)]
  /\ users (world_after (handlePlaceOrder separator) s w) = users w
  /\ orders (world_after (handlePlaceOrder separator) s w) = orders w
  /\ alerts (world_after (handlePlaceOrder separator) s w)
     = PlacementError :: alerts w
  /\ cartItems (screen_after (handlePlaceOrder separator) s w) = cartItems s.
Proof.
  unfold world_after, screen_after.
  destruct (handlePlaceOrder separator s w) as [[r s'] w'] eqn:Hrun.
  unfold handlePlaceOrder, setIsLoading in Hrun. run_in Hrun.
  all: simpl; intros Hsent Hin; issued_from Hsent.
  all: repeat (apply elem_of_cons in Hin as [Hin|Hin]);
    try (by apply elem_of_nil in Hin); by simplify_eq.
Qed.

Lemma handlePlaceOrder_post_fails_witness :
  users (world_after (handlePlaceOrder Vietnam.separator)
           Sample.checkout Sample.offline)
  = users Sample.offline
  /\ alerts (world_after (handlePlaceOrder Vietnam.separator)
               Sample.checkout Sample.offline)
     = PlacementError :: alerts Sample.offline.
Proof.
  pose proof (handlePlaceOrder_post_fails "." Sample.checkout Sample.offline
    (newOrder "." Sample.checkout "u1" Sample.lanInfo 1714644000000 42
       "2024-05-02T10:00:00.000Z")
    [(PostOrder
        (newOrder "." Sample.checkout "u1" Sample.lanInfo 1714644000000 42
           "2024-05-02T10:00:00.000Z"), false)]) as H.
  destruct H as (_ & Hu & _ & Ha & _).
  - reflexivity.
  - left.
  - by split.
Defined.

(** C7: [handlePlaceOrder] shows the notice of a missing address exactly
    when the address is empty or white space only; then it issues no
    request and leaves the remote store and the screen as they were.
    No other input is required: with a session and the user's data, an
    address that is not blank always gets the order posted. *)
Theorem handlePlaceOrder_address_gate
    (separator : string) (s : Screen) (w : World) :
  (alerts (world_after (handlePlaceOrder separator) s w)
   = ValidationError :: alerts w
   <-> whitespace_only (address s))
  /\ (whitespace_only (address s) ->
      sent (world_after (handlePlaceOrder separator) s w) = sent w
      /\ users (world_after (handlePlaceOrder separator) s w) = users w
      /\ orders (world_after (handlePlaceOrder separator) s w) = orders w
      /\ screen_after (handlePlaceOrder separator) s w = s)
  /\ (~ whitespace_only (address s) ->
      forall userId userInfo,
        session (storage w) = Some userId ->
        Checkout.userInfo s = Some userInfo ->
        exists fate later,
          sent (world_after (handlePlaceOrder separator) s w)
          = later
            ++ (PostOrder
                  (newOrder separator s userId userInfo (clock w) (random w)
                     (isoClock w)), fate)
            :: sent w).
Proof.
  rewrite <- Blank.trim_blank.
  unfold world_after, screen_after.
  destruct (handlePlaceOrder separator s w) as [[r s'] w'] eqn:Hrun.
  unfold handlePlaceOrder, setIsLoading in Hrun. run_in Hrun.
  all: match goal with
       | H : negb _ = true |- _ => apply negb_true_iff in H; rewrite H
       | H : negb _ = false |- _ => apply negb_false_iff in H; rewrite H
       end.
  all: split; [split; intros Ha|split; intros Ha].
  all: try done.
  all: try (exfalso; by apply cons_neq_self in Ha).
  all: try (exfalso; by simplify_eq).
  all: intros userId info ? ?; simplify_eq.
  all: first [by eexists _, [_]|by eexists _, []].
Qed.

Lemma handlePlaceOrder_address_gate_witness :
  sent (world_after (handlePlaceOrder Vietnam.separator)
          Checkout.initial Sample.world)
  = sent Sample.world
  /\ alerts (world_after (handlePlaceOrder Vietnam.separator)
               Checkout.initial Sample.world)
     = ValidationError :: alerts Sample.world.
Proof.
  destruct (handlePlaceOrder_address_gate "." Checkout.initial Sample.world)
    as (Hiff & Hblank & _).
  assert (whitespace_only (address Checkout.initial)) as Hw by constructor.
  split.
  - by apply Hblank.
  - by apply Hiff.
Defined.



End CheckoutPlacement.

(** ** Quantities stay positive *)

Module CartInvariant.
Import Cart CartQuantity.

Lemma positive_nil : positive [].
Proof. constructor. Qed.

Lemma positive_elem c item :
  positive c -> item ∈ c -> 1 <= CartItem.quantity item.
Proof. intros Hc Hin. by apply (proj1 (Forall_forall _ _) Hc). Qed.

Lemma positive_filter (P : CartItem.t -> Prop) `{forall x, Decision (P x)} c :
  positive c -> positive (filter P c).
Proof.
  unfold positive. rewrite !Forall_forall. intros Hc item Hin.
  apply list_elem_of_filter in Hin as [_ Hin]. by apply Hc.
Qed.

Lemma positive_updatedCart c itemId q :
  positive c -> 0 <= q -> positive (updatedCart c itemId q).
Proof.
  intros Hc Hq. unfold updatedCart.
  destruct (Z.eqb_spec q 0) as [->|Hq0]; [by apply positive_filter|].
  unfold positive. apply Forall_map. eapply Forall_impl; [exact Hc|].
  intros item Hitem. simpl in *. case_decide; simpl; lia.
Qed.

Lemma carts_positive_insert users userId user c :
  carts_positive users -> positive c ->
  carts_positive (<[userId := User.with_cart user c]> users).
Proof.
  intros Hu Hc userId' user' c'. rewrite lookup_insert. case_decide.
  - intros [= <-]. simpl. by intros [= <-].
  - apply Hu.
Qed.

Lemma positive_loaded users userId user :
  carts_positive users -> users !! userId = Some user ->
  positive (default [] (User.cart user)).
Proof.
  intros Hu Hlook. destruct (User.cart user) as [c|] eqn:Hc; simpl.
  - by apply (Hu userId user).
  - apply positive_nil.
Qed.

Lemma positive_others c itemId :
  positive c -> positive (filter (fun item => CartItem.id item ≠ itemId) c).
Proof. apply positive_filter. Qed.

Create HintDb cart.
#[local] Hint Resolve positive_nil positive_others positive_updatedCart
  carts_positive_insert positive_loaded : cart.

(** C5: on a cart screen whose lines all have a quantity of 1 or more,
    and with such carts in the remote store, pressing any control the
    screen shows leaves only lines with a quantity of 1 or more: in every
    cart the run writes back, in the carts of the remote store and in
    the cart of the screen afterwards.  Pressing minus on a line of
    quantity 1 writes back the cart without that line. *)
Theorem onPress_keeps_quantities_positive
    (s : Screen) (w : World) (p : Press) :
  shown s p ->
  positive (cartItems s) ->
  carts_positive (users w) ->
  (forall userId cart fate,
      (PatchUserCart userId cart, fate)
      ∈ sent (world_after (onPress p) s w) ->
      (PatchUserCart userId cart, fate) ∈ sent w
      \/ (positive cart
          /\ forall item,
               p = Minus item -> CartItem.quantity item = 1 ->
               cart = others (CartItem.id item) (cartItems s)))
  /\ carts_positive (users (world_after (onPress p) s w))
  /\ positive (cartItems (screen_after (onPress p) s w)).
Proof.
  intros Hshown Hpos Hstore. unfold world_after, screen_after.
  destruct (onPress p s w) as [[r s'] w'] eqn:Hrun.
  assert (forall item, item ∈ cartItems s -> 0 <= CartItem.quantity item - 1
                                             /\ 0 <= CartItem.quantity item + 1)
    as Hq.
  { intros item Hin. pose proof (positive_elem _ _ Hpos Hin). lia. }
  destruct p as [item|item|item|]; simpl in Hshown;
    unfold onPress, updateQuantity, removeItem, removeAllItems, fetchCartData,
      setCartItems, setUserInfo, setIsLoading in Hrun;
    run_in Hrun.
  all: try (destruct (Hq item Hshown) as [Hminus Hplus]).
  all: split; [intros userId cart fate Hin|split].
  all: try (by eauto 6 with cart).
  all: repeat (apply elem_of_cons in Hin as [Hin|Hin]); simplify_eq;
    try (by left).
  all: right; split; [eauto with cart|].
  all: intros item' Heq Hone; simplify_eq.
  all: unfold updatedCart; by rewrite Hone.
Qed.

Lemma onPress_keeps_quantities_positive_witness :
  carts_positive
    (users (world_after (onPress (Minus Sample.rose))
              Sample.cartScreen Sample.world))
  /\ positive
       (cartItems (screen_after (onPress (Minus Sample.rose))
                     Sample.cartScreen Sample.world)).
Proof.
  assert (positive Sample.cart) as Hcart.
  { unfold positive, Sample.cart.
    constructor; [simpl; lia|]. constructor; [simpl; lia|]. constructor. }
  apply (onPress_keeps_quantities_positive Sample.cartScreen Sample.world
           (Minus Sample.rose)).
  - simpl. left.
  - exact Hcart.
  - intros userId user c. unfold Sample.world. simpl.
    rewrite lookup_singleton. case_decide; [|done].
    intros [= <-]. simpl. by intros [= <-].
Defined.

End CartInvariant.

(** ** Sorting with a comparator that subtracts keys *)

Module Sorting.

Section keyed.
Context {A : Type} (compareFn : A -> A -> Js.number) (key : A -> Z).
Context (P : A -> Prop).
Hypothesis compare_keys :
  forall a b, P a -> P b -> compareFn a b = Js.Num (key b - key a).

Lemma insert_perm x l : Js.insert compareFn x l ≡ₚ x :: l.
Proof.
  induction l as [|y l IH]; simpl; [done|].
  destruct (Js.gt0 _); [|done]. rewrite IH. apply Permutation_swap.
Qed.

Lemma sort_perm l : Js.sort compareFn l ≡ₚ l.
Proof.
  induction l as [|x l IH]; simpl; [done|].
  fold (Js.sort compareFn l). by rewrite insert_perm, IH.
Qed.

Lemma insert_descending x l :
  P x -> Forall P l -> descending key l ->
  descending key (Js.insert compareFn x l).
Proof.
  intros Hx Hl Hsorted. induction Hsorted as [|y l Hsorted IH Hy]; simpl.
  - repeat constructor.
  - apply Forall_cons in Hl as [HPy Hl].
    rewrite (compare_keys x y) by done. simpl.
    destruct (Z.ltb_spec 0 (key y - key x)) as [Hlt|Hge].
    + constructor; [by apply IH|].
      rewrite insert_perm. constructor; [lia|done].
    + constructor; [by constructor|].
      constructor; [lia|].
      eapply Forall_impl; [exact Hy|]. simpl. intros z Hz. lia.
Qed.

Lemma sort_descending l : Forall P l -> descending key (Js.sort compareFn l).
Proof.
  induction 1 as [|x l Hx Hl IH]; simpl; [constructor|].
  fold (Js.sort compareFn l). apply insert_descending; [done| |done].
  by rewrite sort_perm.
Qed.

Lemma insert_filter k x l :
  P x -> Forall P l ->
  filter (fun a => key a = k) (Js.insert compareFn x l)
  = filter (fun a => key a = k) (x :: l).
Proof.
  intros Hx. induction 1 as [|y l Hy Hl IH]; simpl; [done|].
  rewrite (compare_keys x y) by done. simpl.
  destruct (Z.ltb_spec 0 (key y - key x)) as [Hlt|Hge]; [|done].
  rewrite (filter_cons _ y), IH, !(filter_cons _ x), (filter_cons _ y).
  repeat case_decide; try done; lia.
Qed.

Lemma sort_filter k l :
  Forall P l ->
  filter (fun a => key a = k) (Js.sort compareFn l)
  = filter (fun a => key a = k) l.
Proof.
  induction 1 as [|x l Hx Hl IH]; simpl; [done|].
  fold (Js.sort compareFn l).
  rewrite insert_filter by (done || by rewrite sort_perm).
  by rewrite !(filter_cons _ x), IH.
Qed.

Lemma descending_lookup l i j a b :
  descending key l -> l !! i = Some a -> l !! j = Some b ->
  key b < key a -> (i < j)%nat.
Proof.
  intros Hsorted. revert i j.
  induction Hsorted as [|x l Hsorted IH Hx]; intros i j; [done|].
  destruct i as [|i], j as [|j]; simpl.
  - intros [= ->] [= ->]. lia.
  - intros. lia.
  - intros Hi [= ->] Hlt. apply list_elem_of_lookup_2 in Hi.
    pose proof (proj1 (Forall_forall _ _) Hx a Hi). simpl in *. lia.
  - intros Hi Hj Hlt. pose proof (IH i j Hi Hj Hlt). lia.
Qed.

End keyed.

End Sorting.

(** ** Grouping orders by day *)

Module Grouping.
Import Notifications.

Lemma get_set_eq {V} (o : Js.object V) k v : Js.get (Js.set o k v) k = Some v.
Proof.
  induction o as [|[k' v'] o IH]; simpl.
  - by rewrite String.eqb_refl.
  - destruct (String.eqb_spec k' k) as [->|Hne]; simpl.
    + by rewrite String.eqb_refl.
    + by destruct (String.eqb_spec k' k).
Qed.

Lemma get_set_ne {V} (o : Js.object V) k k' v :
  k <> k' -> Js.get (Js.set o k v) k' = Js.get o k'.
Proof.
  intros Hne. induction o as [|[k0 v0] o IH]; simpl.
  - by destruct (String.eqb_spec k k').
  - destruct (String.eqb_spec k0 k) as [->|Hk]; simpl.
    + by destruct (String.eqb_spec k k').
    + by rewrite IH.
Qed.

Lemma keys_set_present {V} (o : Js.object V) k v v' :
  Js.get o k = Some v' -> Js.keys (Js.set o k v) = Js.keys o.
Proof.
  unfold Js.keys. induction o as [|[k0 v0] o IH]; simpl; [done|].
  destruct (String.eqb_spec k0 k) as [->|Hk]; simpl; [done|].
  intros H. by rewrite IH.
Qed.

Lemma keys_set_absent {V} (o : Js.object V) k v :
  Js.get o k = None -> Js.keys (Js.set o k v) = Js.keys o ++ [k].
Proof.
  unfold Js.keys. induction o as [|[k0 v0] o IH]; simpl; [done|].
  destruct (String.eqb_spec k0 k) as [->|Hk]; simpl; [done|].
  intros H. by rewrite IH.
Qed.

Lemma elem_of_first_seen x l : x ∈ first_seen l <-> x ∈ l.
Proof.
  induction l as [|y l IH]; simpl; [done|].
  rewrite !elem_of_cons, list_elem_of_filter, IH.
  destruct (decide (x = y)); tauto.
Qed.

Lemma first_seen_snoc l x :
  first_seen (l ++ [x])
  = if decide (x ∈ l) then first_seen l else first_seen l ++ [x].
Proof.
  induction l as [|y l IH]; simpl; [done|]. rewrite IH.
  destruct (decide (x ∈ l)) as [Hin|Hin];
    destruct (decide (x ∈ y :: l)) as [Hin'|Hin'].
  - done.
  - exfalso. apply Hin'. by right.
  - apply elem_of_cons in Hin' as [->|?]; [|done].
    rewrite filter_app, filter_cons, decide_False by (intros H; by apply H).
    by rewrite filter_nil, app_nil_r.
  - rewrite filter_app, filter_cons, decide_True; [done|].
    intros ->. apply Hin'. left.
Qed.

#[local] Arguments day : simpl never.

Section date.
Variable D : Js.Date.

(** One turn of the loop of [groupOrdersByDate]. *)
Lemma group_snoc os o :
  groupOrdersByDate D (os ++ [o])
  = let grouped := groupOrdersByDate D os in
    let grouped :=
      match Js.get grouped (day D o) with
      | None => Js.set grouped (day D o) []
      | Some _ => grouped
      end in
    Js.set grouped (day D o)
      (default [] (Js.get grouped (day D o)) ++ [o]).
Proof. unfold groupOrdersByDate. by rewrite fold_left_app. Qed.

Lemma filter_absent d os :
  d ∉ day D <$> os -> filter (fun o => day D o = d) os = [].
Proof.
  induction os as [|o os IH]; [done|]. rewrite fmap_cons, not_elem_of_cons.
  intros [Hne Hnin]. rewrite filter_cons, decide_False by done. by apply IH.
Qed.

Lemma group_spec os :
  Js.keys (groupOrdersByDate D os) = first_seen (day D <$> os)
  /\ forall k,
       Js.get (groupOrdersByDate D os) k
       = if decide (k ∈ day D <$> os)
         then Some (filter (fun o => day D o = k) os)
         else None.
Proof.
  induction os as [|o os [IHkeys IHget]] using rev_ind.
  - split; [done|]. intros k. rewrite decide_False; [done|].
    intros H. by apply elem_of_nil in H.
  - rewrite group_snoc, fmap_app. simpl. rewrite first_seen_snoc.
    pose proof (IHget (day D o)) as Hday.
    destruct (decide (day D o ∈ day D <$> os)) as [Hin|Hnin];
      rewrite Hday; simpl; rewrite ?Hday; simpl.
    + split; [by erewrite keys_set_present|].
      intros k. rewrite filter_app, filter_cons, filter_nil.
      destruct (decide (day D o = k)) as [<-|Hne].
      * rewrite get_set_eq, decide_True; [done|].
        apply elem_of_app. right. left.
      * rewrite get_set_ne, IHget by done.
        rewrite app_nil_r.
        destruct (decide (k ∈ day D <$> os)) as [Hk|Hk];
          destruct (decide (k ∈ (day D <$> os) ++ [day D o])) as [Hk'|Hk'];
          try done.
        -- exfalso. apply Hk'. apply elem_of_app. by left.
        -- exfalso. apply elem_of_app in Hk' as [?|Hk']; [done|].
           apply list_elem_of_singleton in Hk'. congruence.
    + rewrite get_set_eq. simpl.
      split.
      { erewrite keys_set_present by apply get_set_eq.
        rewrite keys_set_absent by done. by rewrite IHkeys. }
      intros k. rewrite filter_app, filter_cons, filter_nil.
      destruct (decide (day D o = k)) as [<-|Hne].
      * rewrite get_set_eq, decide_True.
        -- by rewrite filter_absent.
        -- apply elem_of_app. right. left.
      * rewrite !get_set_ne, IHget by done.
        rewrite app_nil_r.
        destruct (decide (k ∈ day D <$> os)) as [Hk|Hk];
          destruct (decide (k ∈ (day D <$> os) ++ [day D o])) as [Hk'|Hk'];
          try done.
        -- exfalso. apply Hk'. apply elem_of_app. by left.
        -- exfalso. apply elem_of_app in Hk' as [?|Hk']; [done|].
           apply list_elem_of_singleton in Hk'. congruence.
Qed.

Lemma group_three o1 o2 o3 :
  day D o1 = day D o3 -> day D o2 <> day D o1 ->
  groupOrdersByDate D [o1; o2; o3]
  = [(day D o1, [o1; o3]); (day D o2, [o2])].
Proof.
  intros H13 H21.
  change [o1; o2; o3] with ((([] ++ [o1]) ++ [o2]) ++ [o3]).
  rewrite !group_snoc.
  change (groupOrdersByDate D []) with (@nil (string * list Order.t)).
  rewrite <- H13.
  assert ((day D o2 =? day D o1)%string = false) as H21'
    by (by apply String.eqb_neq).
  assert ((day D o1 =? day D o2)%string = false) as H12'
    by (by apply String.eqb_neq).
  repeat (progress (simpl;
    rewrite ?(String.eqb_refl (day D o1)), ?(String.eqb_refl (day D o2)),
      ?H12', ?H21')).
  reflexivity.
Qed.

End date.

End Grouping.

(** ** The order history *)

Module History.

Section date.
Variable D : Js.Date.

Lemma dated_time t o : dated D t o -> time D o = t.
Proof. unfold dated, time. by intros ->. Qed.

Lemma compareFn_time a b :
  valid_date D a -> valid_date D b ->
  Notifications.compareFn D a b = Js.Num (time D b - time D a).
Proof.
  intros [ta Ha] [tb Hb]. unfold Notifications.compareFn, time.
  unfold dated in *. by rewrite Ha, Hb.
Qed.

Lemma filter_dated t l :
  Forall (valid_date D) l ->
  filter (dated D t) l = filter (fun o => time D o = t) l.
Proof.
  induction 1 as [|o l [t' Ho] Hl IH]; [done|].
  rewrite !filter_cons, IH. pose proof (dated_time _ _ Ho) as Ht'.
  destruct (decide (dated D t o)) as [Hd|Hd];
    destruct (decide (time D o = t)) as [Ht|Ht]; try done.
  - exfalso. apply Ht. by apply dated_time.
  - exfalso. apply Hd. by rewrite <- Ht, Ht'.
Qed.

(** C8: a fetch that succeeds puts in [orders] the orders of the user
    sorted by order date, latest first: they are the orders fetched, an
    order with a later date stands before one with an earlier date, and
    the orders of one date keep the order they were fetched in.
    [groupOrdersByDate] then lists the days in the order in which they
    first occur and gives each day its orders in the order of the list;
    so three orders of the days D2, D1, D2 make the groups D2, with the
    first and the third order in this order, and D1. *)
Theorem fetchOrders_sorts_and_groups
    (s : Notifications.Screen) (w : World) (userId : string) :
  session (storage w) = Some userId ->
  delivered 1 w ->
  Forall (valid_date D)
    (filter (fun o => Order.userId o = userId) (orders w)) ->
  let fetched := filter (fun o => Order.userId o = userId) (orders w) in
  let sorted :=
    Notifications.orders (screen_after (Notifications.fetchOrders D) s w) in
  sorted ≡ₚ fetched
  /\ (forall i j a b ta tb,
        sorted !! i = Some a -> sorted !! j = Some b ->
        dated D ta a -> dated D tb b -> tb < ta -> (i < j)%nat)
  /\ (forall t, filter (dated D t) sorted = filter (dated D t) fetched)
  /\ Js.keys (Notifications.groupOrdersByDate D sorted)
     = first_seen (day D <$> sorted)
  /\ (forall o,
        o ∈ sorted ->
        Js.get (Notifications.groupOrdersByDate D sorted) (day D o)
        = Some (filter (fun o' => day D o' = day D o) sorted))
  /\ (forall o1 o2 o3,
        day D o1 = day D o3 -> day D o2 <> day D o1 ->
        Notifications.groupOrdersByDate D [o1; o2; o3]
        = [(day D o1, [o1; o3]); (day D o2, [o2])]).
Proof.
  intros Hsession Hnet Hvalid fetched sorted.
  apply delivered_S in Hnet as [Hget _].
  assert (sorted = Js.sort (Notifications.compareFn D) fetched) as ->.
  { unfold sorted, screen_after.
    destruct (Notifications.fetchOrders D s w) as [[r s'] w'] eqn:Hrun.
    unfold Notifications.fetchOrders, Notifications.setOrders,
      Notifications.setLoading, Notifications.setRefreshing in Hrun.
    run_in Hrun; done || congruence. }
  pose proof (Sorting.sort_perm (Notifications.compareFn D) fetched) as Hperm.
  assert (Forall (valid_date D)
            (Js.sort (Notifications.compareFn D) fetched)) as Hvalid'
    by (by rewrite Hperm).
  split; [done|]. split; [|split; [|split; [|split]]].
  - intros i j a b ta tb Hi Hj Ha Hb Hlt.
    eapply (Sorting.descending_lookup (time D)); [|exact Hi|exact Hj|].
    + eapply Sorting.sort_descending; [apply compareFn_time|done].
    + by rewrite (dated_time _ _ Ha), (dated_time _ _ Hb).
  - intros t. rewrite !filter_dated by done.
    eapply Sorting.sort_filter; [apply compareFn_time|done].
  - apply Grouping.group_spec.
  - intros o Ho.
    destruct (Grouping.group_spec D
                (Js.sort (Notifications.compareFn D) fetched))
      as [_ Hgroup].
    rewrite Hgroup, decide_True; [done|]. by apply list_elem_of_fmap_2.
  - apply Grouping.group_three.
Qed.

End date.

Lemma fetchOrders_sorts_and_groups_witness :
  let sorted :=
    Notifications.orders
      (screen_after (Notifications.fetchOrders Vietnam.date)
         Sample.historyScreen Sample.history) in
  sorted ≡ₚ [Sample.first; Sample.second; Sample.third]
  /\ Js.keys (Notifications.groupOrdersByDate Vietnam.date sorted)
     = first_seen (day Vietnam.date <$> sorted).
Proof.
  destruct (fetchOrders_sorts_and_groups Vietnam.date
              Sample.historyScreen Sample.history "u1")
    as (Hperm & _ & _ & Hkeys & _).
  - reflexivity.
  - unfold delivered. simpl. constructor.
  - repeat constructor.
    + by exists 1714532400000.
    + by exists 1714644000000.
    + by exists 1714532400000.
  - split; [exact Hperm|exact Hkeys].
Defined.

(** The sample history on the sample device: the order of the later day
    comes first, the two orders of one instant keep their order, and
    the days are listed latest first. *)
Example history_sorted :
  Notifications.orders
    (screen_after (Notifications.fetchOrders Vietnam.date)
       Sample.historyScreen Sample.history)
  = [Sample.second; Sample.first; Sample.third].
Proof. reflexivity. Qed.

Example history_grouped :
  Notifications.groupOrdersByDate Vietnam.date
    [Sample.second; Sample.first; Sample.third]
  = [("2/5/2024", [Sample.second]);
     ("1/5/2024", [Sample.first; Sample.third])].
Proof. reflexivity. Qed.

End History.

(** * Further properties *)

(** ** Loading the cart *)

Module CartLoading.
Import Cart.

(** X1: with a session, a user the store knows and the request
    delivered, [fetchCartData] puts the cart of the store on the screen,
    the empty cart where the user resource has none, with the profile of
    the user, a missing phone number read as the empty string; the
    loading flag is cleared, no notice is shown and the store is as it
    was. *)
Theorem fetchCartData_loads
    (s : Screen) (w : World) (userId : string) (user : User.t) :
  session (storage w) = Some userId ->
  users w !! userId = Some user ->
  delivered 1 w ->
  screen_after fetchCartData s w
  = mkScreen (default [] (User.cart user)) (Some (profile user)) false
  /\ sent (world_after fetchCartData s w) = (GetUser userId, true) :: sent w
  /\ users (world_after fetchCartData s w) = users w
  /\ alerts (world_after fetchCartData s w) = alerts w.
Proof.
  intros Hsession Huser Hnet. apply delivered_S in Hnet as [Hget _].
  unfold screen_after, world_after.
  destruct (fetchCartData s w) as [[r s'] w'] eqn:Hrun.
  unfold fetchCartData, setCartItems, setUserInfo, setIsLoading in Hrun.
  run_in Hrun; try congruence. done.
Qed.

Lemma fetchCartData_loads_witness :
  cartItems (screen_after fetchCartData (mkScreen [] None true) Sample.world)
  = Sample.cart.
Proof.
  destruct (fetchCartData_loads (mkScreen [] None true) Sample.world "u1"
              Sample.lan) as (Hscreen & _).
  - reflexivity.
  - reflexivity.
  - unfold delivered. simpl. constructor.
  - by rewrite Hscreen.
Defined.

(** X2: where the request of [fetchCartData] fails, the cart and the
    profile on the screen stay as they were, the loading flag is
    cleared, the notice of a cart that could not be loaded is shown, and
    the store is as it was. *)
Theorem fetchCartData_fails
    (s : Screen) (w : World) (userId : string) :
  session (storage w) = Some userId ->
  refused w userId ->
  screen_after fetchCartData s w = mkScreen (cartItems s) (userInfo s) false
  /\ sent (world_after fetchCartData s w) = (GetUser userId, false) :: sent w
  /\ users (world_after fetchCartData s w) = users w
  /\ alerts (world_after fetchCartData s w) = CartLoadError :: alerts w.
Proof.
  intros Hsession Hrefused. unfold screen_after, world_after.
  destruct (fetchCartData s w) as [[r s'] w'] eqn:Hrun.
  unfold fetchCartData, setCartItems, setUserInfo, setIsLoading in Hrun.
  run_in Hrun; try congruence; try done.
  all: destruct Hrefused; congruence.
Qed.

Lemma fetchCartData_fails_witness :
  cartItems (screen_after fetchCartData Sample.cartScreen Sample.offline)
  = Sample.cart
  /\ alerts (world_after fetchCartData Sample.cartScreen Sample.offline)
     = [CartLoadError].
Proof.
  destruct (fetchCartData_fails Sample.cartScreen Sample.offline "u1")
    as (Hscreen & _ & _ & Halerts).
  - reflexivity.
  - by left.
  - by rewrite Hscreen, Halerts.
Defined.

(** X3: without a session [fetchCartData] only clears the loading flag:
    it sends nothing, shows nothing, goes nowhere, and the cart on the
    screen stays. *)
Theorem fetchCartData_no_session (s : Screen) (w : World) :
  session (storage w) = None ->
  screen_after fetchCartData s w = mkScreen (cartItems s) (userInfo s) false
  /\ world_after fetchCartData s w = w.
Proof.
  intros Hsession. unfold screen_after, world_after.
  destruct (fetchCartData s w) as [[r s'] w'] eqn:Hrun.
  unfold fetchCartData, setCartItems, setUserInfo, setIsLoading in Hrun.
  run_in Hrun; try congruence. done.
Qed.

Lemma fetchCartData_no_session_witness :
  world_after fetchCartData Sample.cartScreen
    (mkWorld None ∅ [] [] [] [] [] 0 0 "")
  = mkWorld None ∅ [] [] [] [] [] 0 0 "".
Proof.
  by destruct (fetchCartData_no_session Sample.cartScreen
                 (mkWorld None ∅ [] [] [] [] [] 0 0 "")) as [_ Hw].
Defined.

End CartLoading.

(** ** More on quantity updates *)

Module CartUpdate.
Import Cart.

Lemma with_quantity_same item :
  CartItem.with_quantity item (CartItem.quantity item) = item.
Proof. by destruct item. Qed.

Lemma updatedCart_same c itemId q :
  q <> 0 ->
  (forall item,
      item ∈ c -> CartItem.id item = itemId -> CartItem.quantity item = q) ->
  updatedCart c itemId q = c.
Proof.
  intros Hq Hc. unfold updatedCart.
  destruct (Z.eqb_spec q 0) as [?|_]; [done|].
  induction c as [|item c IH]; [done|]. simpl. rewrite IH.
  - case_decide as Hid; [|done].
    rewrite <- (Hc item) by (done || left). by rewrite with_quantity_same.
  - intros item' Hin. apply Hc. by right.
Qed.

(** X4: with a new quantity other than 0 the cart written back has the
    lines of the cart, in their order and each with everything but the
    quantity as it was; every line with the id [itemId] has the new
    quantity, and the other lines are as they were. *)
Theorem updatedCart_sets_quantity
    (c : list CartItem.t) (itemId : string) (q : Z) :
  q <> 0 ->
  let result := updatedCart c itemId q in
  (fun item => CartItem.with_quantity item 0) <$> result
  = (fun item => CartItem.with_quantity item 0) <$> c
  /\ (forall item,
        item ∈ result -> CartItem.id item = itemId ->
        CartItem.quantity item = q)
  /\ others itemId result = others itemId c.
Proof.
  intros Hq. simpl. unfold updatedCart, others.
  destruct (Z.eqb_spec q 0) as [?|_]; [done|].
  induction c as [|item c (IHfields & IHq & IHothers)].
  { split; [done|]. split; [|done]. intros ? H. by apply elem_of_nil in H. }
  cbn [map]. split; [|split].
  - rewrite !fmap_cons, IHfields. f_equal. by case_decide.
  - intros item' Hin. apply elem_of_cons in Hin as [->|Hin]; [|by apply IHq].
    by case_decide.
  - rewrite !filter_cons, IHothers.
    destruct (decide (CartItem.id item = itemId)) as [Hid|Hid]; simpl.
    + by rewrite !decide_False by (intros H; by apply H).
    + by rewrite !decide_True.
Qed.

Lemma updatedCart_sets_quantity_witness :
  others "2" (updatedCart Sample.cart "2" 7) = others "2" Sample.cart.
Proof.
  destruct (updatedCart_sets_quantity Sample.cart "2" 7) as (_ & _ & Hothers).
  - discriminate.
  - exact Hothers.
Defined.

(** X5: an id that no line of the cart has changes nothing, whatever the
    new quantity: [updateQuantity] never adds a line. *)
Theorem updatedCart_unknown_id
    (c : list CartItem.t) (itemId : string) (q : Z) :
  (forall item, item ∈ c -> CartItem.id item <> itemId) ->
  updatedCart c itemId q = c.
Proof.
  intros Hc. destruct (Z.eq_dec q 0) as [->|Hq].
  - unfold updatedCart. simpl. induction c as [|item c IH]; [done|].
    rewrite filter_cons, decide_True by (apply Hc; left).
    rewrite IH; [done|]. intros item' Hin. apply Hc. by right.
  - apply updatedCart_same; [done|]. intros item Hin Hid.
    by destruct (Hc item Hin).
Qed.

Lemma updatedCart_unknown_id_witness :
  updatedCart Sample.cart "9" 4 = Sample.cart.
Proof.
  apply updatedCart_unknown_id. intros item Hin.
  apply elem_of_cons in Hin as [->|Hin]; [discriminate|].
  apply list_elem_of_singleton in Hin as ->. discriminate.
Defined.

(** X6: giving a line the quantity it has leaves the cart as it is, and
    an update made twice gives the cart of the update made once. *)
Theorem updatedCart_idempotent
    (c : list CartItem.t) (itemId : string) (q : Z) :
  (q <> 0 ->
   (forall item,
       item ∈ c -> CartItem.id item = itemId -> CartItem.quantity item = q) ->
   updatedCart c itemId q = c)
  /\ updatedCart (updatedCart c itemId q) itemId q = updatedCart c itemId q.
Proof.
  split; [apply updatedCart_same|].
  destruct (Z.eq_dec q 0) as [->|Hq].
  - unfold updatedCart. simpl. apply list_filter_filter_l. tauto.
  - apply updatedCart_same; [done|]. intros item Hin Hid.
    unfold updatedCart in Hin. destruct (Z.eqb_spec q 0) as [?|_]; [done|].
    apply list_elem_of_In, in_map_iff in Hin as (item0 & <- & _).
    by case_decide.
Qed.

Lemma updatedCart_idempotent_witness :
  updatedCart Sample.cart "1" 2 = Sample.cart.
Proof.
  destruct (updatedCart_idempotent Sample.cart "1" 2) as [Hsame _].
  apply Hsame; [discriminate|]. intros item Hin Hid.
  apply elem_of_cons in Hin as [->|Hin]; [done|].
  apply list_elem_of_singleton in Hin as ->. discriminate.
Defined.

End CartUpdate.

(** ** Writing the cart back *)

Module CartWriting.
Import Cart.

Ltac run_cart Hrun :=
  unfold updateQuantity, removeItem, removeAllItems, fetchCartData,
    setCartItems, setUserInfo, setIsLoading in Hrun;
  run_in Hrun.

Ltac start m s w Hrun :=
  unfold written, write_failed, reload_failed, world_after, screen_after;
  destruct (m s w) as [[? ?] ?] eqn:Hrun.

(** X7: a write of the cart screen that is delivered, with the reload
    after it, leaves in the store the cart the handler computed from the
    cart on the screen, and on the screen that same cart, without a
    notice: for [updateQuantity] the cart with the quantity set, for
    [removeItem] the cart without the line, for [removeAllItems] the
    empty cart. *)
Theorem cart_written
    (s : Screen) (w : World) (userId : string) (user : User.t)
    (itemId : string) (q : Z) :
  session (storage w) = Some userId ->
  users w !! userId = Some user ->
  delivered 2 w ->
  written (updateQuantity itemId q) s w userId user
    (updatedCart (cartItems s) itemId q)
  /\ written (removeItem itemId) s w userId user
       (others itemId (cartItems s))
  /\ written removeAllItems s w userId user [].
Proof.
  intros Hsession Huser Hnet.
  apply delivered_S in Hnet as [Hpatch Hnet].
  apply delivered_S in Hnet as [Hget _]. simpl in Hget.
  split; [|split].
  - start (updateQuantity itemId q) s w Hrun. run_cart Hrun.
    all: try congruence.
    all: rewrite lookup_insert_eq in *; by simplify_eq.
  - start (removeItem itemId) s w Hrun. run_cart Hrun.
    all: try congruence.
    all: rewrite lookup_insert_eq in *; by simplify_eq.
  - start removeAllItems s w Hrun. run_cart Hrun.
    all: try congruence.
    all: rewrite lookup_insert_eq in *; by simplify_eq.
Qed.

Lemma cart_written_witness :
  cartItems (screen_after (updateQuantity "1" 5) Sample.cartScreen Sample.world)
  = [CartItem.with_quantity Sample.rose 5; Sample.bowl].
Proof.
  destruct (cart_written Sample.cartScreen Sample.world "u1" Sample.lan "1" 5)
    as ((_ & _ & Hscreen & _) & _).
  - reflexivity.
  - reflexivity.
  - unfold delivered. simpl. constructor.
  - by rewrite Hscreen.
Defined.

(** X8: where the write of a handler of the cart screen fails, the
    store and the cart on the screen are as they were, no reload is
    sent, the loading flag is cleared and the notice of that handler is
    shown. *)
Theorem cart_write_failed
    (s : Screen) (w : World) (userId : string) (itemId : string) (q : Z) :
  session (storage w) = Some userId ->
  refused w userId ->
  write_failed (updateQuantity itemId q) s w userId
    (updatedCart (cartItems s) itemId q) QuantityError
  /\ write_failed (removeItem itemId) s w userId
       (others itemId (cartItems s)) RemoveError
  /\ write_failed removeAllItems s w userId [] ClearError.
Proof.
  intros Hsession Hrefused. split; [|split].
  - start (updateQuantity itemId q) s w Hrun. run_cart Hrun.
    all: try congruence; try done.
    all: destruct Hrefused; congruence.
  - start (removeItem itemId) s w Hrun. run_cart Hrun.
    all: try congruence; try done.
    all: destruct Hrefused; congruence.
  - start removeAllItems s w Hrun. run_cart Hrun.
    all: try congruence; try done.
    all: destruct Hrefused; congruence.
Qed.

Lemma cart_write_failed_witness :
  users (world_after (removeItem "1") Sample.cartScreen Sample.offline)
  = users Sample.offline
  /\ alerts (world_after (removeItem "1") Sample.cartScreen Sample.offline)
     = [RemoveError].
Proof.
  destruct (cart_write_failed Sample.cartScreen Sample.offline "u1" "1" 0)
    as (_ & (Husers & _ & _ & Halerts) & _).
  - reflexivity.
  - by left.
  - by rewrite Husers, Halerts.
Defined.

(** X9: where the write is delivered and the reload after it fails, the
    store has the new cart while the screen keeps the cart it had, with
    the notice of a cart that could not be loaded. *)
Theorem cart_reload_failed
    (s : Screen) (w : World) (userId : string) (user : User.t)
    (itemId : string) (q : Z) :
  session (storage w) = Some userId ->
  users w !! userId = Some user ->
  delivered 1 w ->
  hd true (tail (transport w)) = false ->
  reload_failed (updateQuantity itemId q) s w userId user
    (updatedCart (cartItems s) itemId q)
  /\ reload_failed (removeItem itemId) s w userId user
       (others itemId (cartItems s))
  /\ reload_failed removeAllItems s w userId user [].
Proof.
  intros Hsession Huser Hnet Hget.
  apply delivered_S in Hnet as [Hpatch _].
  split; [|split].
  - start (updateQuantity itemId q) s w Hrun. run_cart Hrun.
    all: try congruence; try done.
  - start (removeItem itemId) s w Hrun. run_cart Hrun.
    all: try congruence; try done.
  - start removeAllItems s w Hrun. run_cart Hrun.
    all: try congruence; try done.
Qed.

Lemma cart_reload_failed_witness :
  cartItems
    (screen_after removeAllItems Sample.cartScreen
       (with_transport Sample.world [true; false]))
  = Sample.cart
  /\ User.cart <$>
       users (world_after removeAllItems Sample.cartScreen
                (with_transport Sample.world [true; false])) !! "u1"
     = Some (Some []).
Proof.
  destruct (cart_reload_failed Sample.cartScreen
              (with_transport Sample.world [true; false]) "u1" Sample.lan
              "1" 0)
    as (_ & _ & (Husers & _ & Hscreen & _)).
  - reflexivity.
  - reflexivity.
  - unfold delivered. simpl. by repeat constructor.
  - reflexivity.
  - rewrite Husers, Hscreen. split; [done|]. by rewrite lookup_insert_eq.
Defined.

(** X10: without a session the three handlers that write the cart send
    nothing and show nothing, and they leave the loading flag set. *)
Theorem cart_write_no_session
    (s : Screen) (w : World) (itemId : string) (q : Z) :
  session (storage w) = None ->
  (world_after (updateQuantity itemId q) s w = w
   /\ screen_after (updateQuantity itemId q) s w
      = mkScreen (cartItems s) (userInfo s) true)
  /\ (world_after (removeItem itemId) s w = w
      /\ screen_after (removeItem itemId) s w
         = mkScreen (cartItems s) (userInfo s) true)
  /\ (world_after removeAllItems s w = w
      /\ screen_after removeAllItems s w
         = mkScreen (cartItems s) (userInfo s) true).
Proof.
  intros Hsession. split; [|split].
  - start (updateQuantity itemId q) s w Hrun. run_cart Hrun.
    all: try congruence; done.
  - start (removeItem itemId) s w Hrun. run_cart Hrun.
    all: try congruence; done.
  - start removeAllItems s w Hrun. run_cart Hrun.
    all: try congruence; done.
Qed.

Lemma cart_write_no_session_witness :
  isLoading
    (screen_after removeAllItems Sample.cartScreen
       (mkWorld None ∅ [] [] [] [] [] 0 0 ""))
  = true.
Proof.
  destruct (cart_write_no_session Sample.cartScreen
              (mkWorld None ∅ [] [] [] [] [] 0 0 "") "1" 0)
    as (_ & _ & (_ & Hscreen)).
  - reflexivity.
  - by rewrite Hscreen.
Defined.

(** X11: [removeItem] does what [updateQuantity] does with the new
    quantity 0: the same requests, the same store and the same screen
    afterwards; the two differ only in the notice they show where the
    write fails. *)
Theorem removeItem_updateQuantity_zero
    (s : Screen) (w : World) (itemId : string) :
  screen_after (removeItem itemId) s w
  = screen_after (updateQuantity itemId 0) s w
  /\ users (world_after (removeItem itemId) s w)
     = users (world_after (updateQuantity itemId 0) s w)
  /\ sent (world_after (removeItem itemId) s w)
     = sent (world_after (updateQuantity itemId 0) s w)
  /\ transport (world_after (removeItem itemId) s w)
     = transport (world_after (updateQuantity itemId 0) s w).
Proof.
  unfold world_after, screen_after.
  destruct (removeItem itemId s w) as [[r1 s1] w1] eqn:Hrun1.
  destruct (updateQuantity itemId 0 s w) as [[r2 s2] w2] eqn:Hrun2.
  run_cart Hrun1; run_cart Hrun2; try congruence; try done.
  all: unfold updatedCart in *; simpl in *.
  all: rewrite ?lookup_insert_eq in *; simplify_eq; done.
Qed.

End CartWriting.

(** ** More on totals *)

Module TotalsMore.
Import Prices Totals.

Lemma line_step_comm acc x y :
  line_step (line_step acc x) y = line_step (line_step acc y) x.
Proof.
  unfold line_step. destruct acc as [a|]; [|done]. simpl.
  destruct (Cart.parsePrice (CartItem.price x)) as [px|],
    (Cart.parsePrice (CartItem.price y)) as [py|]; simpl; try done.
  f_equal. destruct a, px, py; simpl; try done. f_equal. lia.
Qed.

Lemma fold_permutation c c' acc :
  c ≡ₚ c' -> fold_left line_step c acc = fold_left line_step c' acc.
Proof.
  intros Hperm. revert acc.
  induction Hperm as [|x c c' _ IH|x y c|c c' c'' _ IH1 _ IH2]; intros acc.
  - done.
  - apply IH.
  - simpl. by rewrite line_step_comm.
  - by rewrite IH1.
Qed.









(** X15: a line whose price has no digits to read makes the total
    [NaN]: the total of the cart is then never a number, and it is [NaN]
    where every price is read. *)
Theorem calculateTotalPrice_NaN (c : list CartItem.t) (item : CartItem.t) :
  item ∈ c ->
  Cart.parsePrice (CartItem.price item) = Some Js.NaN ->
  (forall t, Cart.calculateTotalPrice c <> Some (Js.Num t))
  /\ ((forall item', item' ∈ c ->
         is_Some (Cart.parsePrice (CartItem.price item'))) ->
      Cart.calculateTotalPrice c = Some Js.NaN).
Proof.
  intros Hin Hprice.
  apply list_elem_of_split in Hin as (c1 & c2 & ->).
  assert (item :: c1 ++ c2 ≡ₚ c1 ++ item :: c2) as Hperm
    by apply Permutation_middle.
  rewrite Cart_total, <- (fold_permutation _ _ _ Hperm).
  cbn [fold_left]. unfold line_step at 2 4. simpl. rewrite Hprice. simpl.
  split.
  - intros t. apply fold_NaN.
  - intros Hall.
    assert (forall item', item' ∈ c1 ++ c2 ->
              is_Some (Cart.parsePrice (CartItem.price item'))) as Hrest.
    { intros item' Hin. apply Hall. rewrite <- Hperm. by right. }
    clear Hall Hperm. induction (c1 ++ c2) as [|x l IH]; [done|].
    cbn [fold_left]. unfold line_step at 2. simpl.
    destruct (Hrest x) as [p Hp]; [left|]. rewrite Hp. simpl.
    apply IH. intros item' Hin. apply Hrest. by right.
Qed.

Lemma calculateTotalPrice_NaN_witness :
  Cart.calculateTotalPrice
    [Sample.rose;
     CartItem.mk "4" "p-4" "Cây cảnh" "Liên hệ" "tree.png" 1 None]
  = Some Js.NaN.
Proof.
  destruct (calculateTotalPrice_NaN
              [Sample.rose;
               CartItem.mk "4" "p-4" "Cây cảnh" "Liên hệ" "tree.png" 1 None]
              (CartItem.mk "4" "p-4" "Cây cảnh" "Liên hệ" "tree.png" 1 None))
    as [_ H].
  - right. left.
  - reflexivity.
  - apply H. intros item' Hin.
    apply elem_of_cons in Hin as [->|Hin]; [by eexists|].
    apply list_elem_of_singleton in Hin as ->. by eexists.
Defined.

End TotalsMore.

(** ** Amounts written and read back *)

Module Amounts.
Import Prices.




End Amounts.

(** ** More on placing an order *)

Module CheckoutMore.
Import Checkout.

#[local] Arguments newOrder : simpl never.

Ltac run_checkout Hrun :=
  unfold handlePlaceOrder, setIsLoading in Hrun; run_in Hrun.

Lemma not_blank s :
  ~ whitespace_only (address s) ->
  negb (Js.truthy (Js.trim (address s))) = false.
Proof.
  intros H. apply negb_false_iff. apply not_false_iff_true.
  by rewrite Blank.trim_blank.
Qed.

(** X17: with an address that is not blank and no session, or no data
    of the user on the screen, [handlePlaceOrder] goes to the login
    route and does nothing else: no request, no notice, the store as it
    was; the loading flag stays set. *)
Theorem handlePlaceOrder_no_session
    (separator : string) (s : Screen) (w : World) :
  ~ whitespace_only (address s) ->
  session (storage w) = None \/ userInfo s = None ->
  world_after (handlePlaceOrder separator) s w
  = with_routes w ("/DangNhap" :: routes w)
  /\ screen_after (handlePlaceOrder separator) s w
     = mkScreen (cartItems s) (userInfo s) (totalPrice s) (shippingFee s)
         true (address s) (paymentMethod s) (dataLoaded s).
Proof.
  intros Haddr Hnone. apply not_blank in Haddr.
  unfold world_after, screen_after.
  destruct (handlePlaceOrder separator s w) as [[r s'] w'] eqn:Hrun.
  run_checkout Hrun; try congruence; try done.
  all: destruct Hnone; congruence.
Qed.

Lemma handlePlaceOrder_no_session_witness :
  routes (world_after (handlePlaceOrder Vietnam.separator) Sample.checkout
            (mkWorld None ∅ [] [] [] [] [] 0 0 ""))
  = ["/DangNhap"].
Proof.
  destruct (handlePlaceOrder_no_session Vietnam.separator Sample.checkout
              (mkWorld None ∅ [] [] [] [] [] 0 0 "")) as [Hw _].
  - intros H. apply Blank.trim_blank in H. discriminate.
  - by left.
  - by rewrite Hw.
Defined.

(** X18: where the order is created and the request that clears the
    cart fails, the order stays in the store and the cart of the user is
    not cleared; the screen keeps its cart and shows the notice of a
    placement that failed. *)
Theorem handlePlaceOrder_clear_fails
    (separator : string) (s : Screen) (w : World) (userId : string)
    (info : UserInfo.t) :
  ~ whitespace_only (address s) ->
  session (storage w) = Some userId ->
  userInfo s = Some info ->
  delivered 1 w ->
  hd true (tail (transport w)) = false \/ users w !! userId = None ->
  let order :=
    newOrder separator s userId info (clock w) (random w) (isoClock w) in
  orders (world_after (handlePlaceOrder separator) s w) = orders w ++ [order]
  /\ users (world_after (handlePlaceOrder separator) s w) = users w
  /\ sent (world_after (handlePlaceOrder separator) s w)
     = (PatchUserCart userId [], false) :: (PostOrder order, true) :: sent w
  /\ alerts (world_after (handlePlaceOrder separator) s w)
     = PlacementError :: alerts w
  /\ screen_after (handlePlaceOrder separator) s w
     = mkScreen (cartItems s) (userInfo s) (totalPrice s) (shippingFee s)
         false (address s) (paymentMethod s) (dataLoaded s).
Proof.
  intros Haddr Hsession Hinfo Hnet Hpatch. apply not_blank in Haddr.
  apply delivered_S in Hnet as [Hpost _].
  unfold world_after, screen_after. simpl.
  destruct (handlePlaceOrder separator s w) as [[r s'] w'] eqn:Hrun.
  run_checkout Hrun; try congruence; try done.
  all: destruct Hpatch; congruence.
Qed.

Lemma handlePlaceOrder_clear_fails_witness :
  length
    (orders (world_after (handlePlaceOrder Vietnam.separator) Sample.checkout
               (with_transport Sample.world [true; false])))
  = 1%nat
  /\ users (world_after (handlePlaceOrder Vietnam.separator) Sample.checkout
              (with_transport Sample.world [true; false]))
     = users Sample.world.
Proof.
  destruct (handlePlaceOrder_clear_fails Vietnam.separator Sample.checkout
              (with_transport Sample.world [true; false]) "u1" Sample.lanInfo)
    as (Horders & Husers & _).
  - intros H. apply Blank.trim_blank in H. discriminate.
  - reflexivity.
  - reflexivity.
  - unfold delivered. simpl. by repeat constructor.
  - by left.
  - by rewrite Horders, Husers.
Defined.



(** X20: [handlePlaceOrder] does not look at the subtotal: where it is
    [NaN], the order is created all the same, with total and final amount
    [NaNđ]. *)
Theorem handlePlaceOrder_NaN_total
    (separator : string) (s : Screen) (w : World) (userId : string)
    (info : UserInfo.t) :
  ~ whitespace_only (address s) ->
  session (storage w) = Some userId ->
  userInfo s = Some info ->
  delivered 1 w ->
  totalPrice s = Js.NaN ->
  exists order,
    orders (world_after (handlePlaceOrder separator) s w)
    = orders w ++ [order]
    /\ Order.totalAmount order = "NaNđ"
    /\ Order.finalAmount order = "NaNđ".
Proof.
  intros Haddr Hsession Hinfo Hnet Htotal. apply not_blank in Haddr.
  apply delivered_S in Hnet as [Hpost _].
  exists (newOrder separator s userId info (clock w) (random w) (isoClock w)).
  split.
  - unfold world_after.
    destruct (handlePlaceOrder separator s w) as [[r s'] w'] eqn:Hrun.
    run_checkout Hrun; try congruence; try done.
  - unfold newOrder. simpl. by rewrite Htotal.
Qed.

Lemma handlePlaceOrder_NaN_total_witness :
  exists order,
    orders
      (world_after (handlePlaceOrder Vietnam.separator)
         (mkScreen [] (Some Sample.lanInfo) Js.NaN (Js.Num 30000) false
            "123 Main" "COD" true)
         Sample.world)
    = [order]
    /\ Order.finalAmount order = "NaNđ".
Proof.
  destruct (handlePlaceOrder_NaN_total Vietnam.separator
              (mkScreen [] (Some Sample.lanInfo) Js.NaN (Js.Num 30000) false
                 "123 Main" "COD" true)
              Sample.world "u1" Sample.lanInfo)
    as (order & Horders & _ & Hfinal).
  - intros H. apply Blank.trim_blank in H. discriminate.
  - reflexivity.
  - reflexivity.
  - unfold delivered. simpl. by repeat constructor.
  - reflexivity.
  - by exists order.
Defined.

(** X21: after a run in which the order was created and the cart was
    not cleared, pressing the button again creates the order a second
    time: with the requests delivered now, the store has two orders with
    the same customer, lines, amounts and payment method, and the cart is
    cleared. *)
Theorem handlePlaceOrder_again
    (separator : string) (s : Screen) (w : World) (userId : string)
    (info : UserInfo.t) (user : User.t) (rest : list bool) (now rnd : Z)
    (iso : string) :
  ~ whitespace_only (address s) ->
  session (storage w) = Some userId ->
  userInfo s = Some info ->
  users w !! userId = Some user ->
  transport w = true :: false :: true :: true :: rest ->
  let s1 := screen_after (handlePlaceOrder separator) s w in
  let w1 := later (world_after (handlePlaceOrder separator) s w) now rnd iso in
  let w2 := world_after (handlePlaceOrder separator) s1 w1 in
  exists o1 o2,
    orders w2 = orders w ++ [o1; o2]
    /\ Order.userId o1 = Order.userId o2
    /\ Order.customerInfo o1 = Order.customerInfo o2
    /\ Order.items o1 = Order.items o2
    /\ Order.totalAmount o1 = Order.totalAmount o2
    /\ Order.shippingFee o1 = Order.shippingFee o2
    /\ Order.finalAmount o1 = Order.finalAmount o2
    /\ Order.paymentMethod o1 = Order.paymentMethod o2
    /\ users w2 !! userId = Some (User.with_cart user [])
    /\ alerts w2 = PlacementDone :: PlacementError :: alerts w.
Proof.
  intros Haddr Hsession Hinfo Huser Hnet. apply not_blank in Haddr.
  exists (newOrder separator s userId info (clock w) (random w) (isoClock w)),
    (newOrder separator s userId info now rnd iso).
  unfold world_after, screen_after, later. simpl.
  destruct (handlePlaceOrder separator s w) as [[r s'] w'] eqn:Hrun.
  run_checkout Hrun; try congruence; try done.
  all: rewrite Hnet in *; simpl in *; try congruence.
  destruct (handlePlaceOrder separator _ _) as [[r2 s2] w2] eqn:Hrun2.
  run_checkout Hrun2; try congruence; try done.
  rewrite <- app_assoc. simpl. rewrite lookup_insert_eq.
  by repeat split.
Qed.

Lemma handlePlaceOrder_again_witness :
  length
    (orders
       (world_after (handlePlaceOrder Vietnam.separator)
          (screen_after (handlePlaceOrder Vietnam.separator) Sample.checkout
             (with_transport Sample.world [true; false; true; true]))
          (later
             (world_after (handlePlaceOrder Vietnam.separator) Sample.checkout
                (with_transport Sample.world [true; false; true; true]))
             1 2 "")))
  = 2%nat.
Proof.
  destruct (handlePlaceOrder_again Vietnam.separator Sample.checkout
              (with_transport Sample.world [true; false; true; true]) "u1"
              Sample.lanInfo Sample.lan [] 1 2 "")
    as (o1 & o2 & Horders & _).
  - intros H. apply Blank.trim_blank in H. discriminate.
  - reflexivity.
  - reflexivity.
  - reflexivity.
  - reflexivity.
  - by rewrite Horders.
Defined.

Lemma append_inj s1 s2 t1 t2 :
  String.length s1 = String.length t1 ->
  s1 +:+ s2 = t1 +:+ t2 -> s1 = t1 /\ s2 = t2.
Proof.
  revert t1. induction s1 as [|c s1 IH]; intros [|c' t1]; simpl; try done.
  intros Hlen Heq. simplify_eq. destruct (IH t1) as [-> ->]; [lia|done|done].
Qed.

Lemma toString_inj a b :
  0 <= a -> 0 <= b ->
  Js.toString (Js.Num a) = Js.toString (Js.Num b) -> a = b.
Proof.
  intros Ha Hb. unfold Js.toString, Js.digits_string.
  assert ((a <? 0) = false) as -> by lia.
  assert ((b <? 0) = false) as -> by lia.
  destruct (Prices.to_digits_spec a Ha) as (Hva & Hda & Hna).
  destruct (Prices.to_digits_spec b Hb) as (Hvb & Hdb & Hnb).
  fold (dstr (Js.to_digits a)). fold (dstr (Js.to_digits b)).
  intros Heq. apply (f_equal Js.parseFloat) in Heq.
  rewrite !Prices.parseFloat_dstr in Heq by done. congruence.
Qed.

(** X22: two orders have the same id only if they were built from the
    same clock reading and the same random number, as long as the two
    clock readings have the same number of digits (all readings from
    2001 to 2286 have thirteen). *)
Theorem newOrder_id_inj
    (separator : string) (s1 s2 : Screen) (u1 u2 : string)
    (i1 i2 : UserInfo.t) (now1 now2 rnd1 rnd2 : Z) (iso1 iso2 : string) :
  0 <= now1 -> 0 <= now2 -> 0 <= rnd1 -> 0 <= rnd2 ->
  String.length (Js.toString (Js.Num now1))
  = String.length (Js.toString (Js.Num now2)) ->
  Order.id (newOrder separator s1 u1 i1 now1 rnd1 iso1)
  = Order.id (newOrder separator s2 u2 i2 now2 rnd2 iso2) ->
  now1 = now2 /\ rnd1 = rnd2.
Proof.
  intros Hn1 Hn2 Hr1 Hr2 Hlen Hid. unfold newOrder in Hid. simpl in Hid.
  simplify_eq. apply append_inj in Hid as [Hnow Hrnd]; [|done].
  split; by apply toString_inj.
Qed.

Lemma newOrder_id_inj_witness :
  1714600000000 = 1714600000000 /\ 7 = 7.
Proof.
  apply (newOrder_id_inj "." Sample.checkout Sample.checkout "u1" "u1"
           Sample.lanInfo Sample.lanInfo 1714600000000 1714600000000 7 7
           "" ""); try lia; reflexivity.
Defined.

(** Clock readings with different numbers of digits can give one id. *)
Example newOrder_id_collision :
  Order.id (newOrder "." Sample.checkout "u1" Sample.lanInfo 1 23 "")
  = Order.id (newOrder "." Sample.checkout "u1" Sample.lanInfo 12 3 "").
Proof. reflexivity. Qed.

End CheckoutMore.

(** ** More on the order history *)

Module SortingMore.
Section keyed.
Context {A : Type} (compareFn : A -> A -> Js.number) (key : A -> Z).
Context (P : A -> Prop).
Hypothesis compare_keys :
  forall a b, P a -> P b -> compareFn a b = Js.Num (key b - key a).

Lemma sort_sorted l :
  Forall P l -> descending key l -> Js.sort compareFn l = l.
Proof.
  intros HP Hsorted. induction Hsorted as [|x l Hl IH Hx]; [done|].
  apply Forall_cons in HP as [HPx HPl]. simpl. rewrite IH by done.
  destruct l as [|y l']; [done|]. simpl.
  apply Forall_cons in Hx as [Hy _]. apply Forall_cons in HPl as [HPy _].
  rewrite compare_keys by done. simpl.
  by assert ((0 <? key y - key x) = false) as -> by lia.
Qed.
End keyed.
End SortingMore.

Module HistoryMore.

Ltac run_history Hrun :=
  unfold Notifications.onRefresh, Notifications.fetchOrders,
    Notifications.setOrders, Notifications.setLoading,
    Notifications.setRefreshing in Hrun;
  run_in Hrun.

#[local] Arguments Js.sort : simpl never.
#[local] Arguments filter : simpl never.

Section date.
Variable D : Js.Date.

Lemma fetchOrders_run s w :
  exists r s' w',
    Notifications.fetchOrders D s w = (r, s', w')
    /\ Notifications.loading s' = false
    /\ Notifications.refreshing s' = false
    /\ alerts w' = alerts w /\ routes w' = routes w
    /\ storage w' = storage w /\ users w' = users w /\ orders w' = orders w.
Proof.
  destruct (Notifications.fetchOrders D s w) as [[r s'] w'] eqn:Hrun.
  exists r, s', w'. split; [done|]. run_history Hrun; by repeat split.
Qed.

(** X23: every run of [fetchOrders], and of [onRefresh], ends with the
    loading and the refreshing flag cleared; it shows no notice, also
    where the request fails, pushes no route and changes neither the
    session nor the store. *)
Theorem fetchOrders_settles (s : Notifications.Screen) (w : World) :
  settles (Notifications.fetchOrders D) s w
  /\ settles (Notifications.onRefresh D) s w.
Proof.
  unfold settles, screen_after, world_after. split.
  - destruct (fetchOrders_run s w) as (r & s' & w' & -> & H). exact H.
  - unfold Notifications.onRefresh, Notifications.setRefreshing, bind,
      set_state.
    destruct (fetchOrders_run
                (Notifications.mkScreen (Notifications.orders s)
                   (Notifications.loading s) true) w)
      as (r & s' & w' & -> & H).
    by destruct r.
Qed.

(** X24: where there is no session, or the request fails, the screen
    keeps the orders it had; without a session no request is issued. *)
Theorem fetchOrders_keeps_orders (s : Notifications.Screen) (w : World) :
  session (storage w) = None \/ hd true (transport w) = false ->
  Notifications.orders (screen_after (Notifications.fetchOrders D) s w)
  = Notifications.orders s
  /\ Notifications.orders (screen_after (Notifications.onRefresh D) s w)
     = Notifications.orders s
  /\ (session (storage w) = None ->
      sent (world_after (Notifications.fetchOrders D) s w) = sent w
      /\ sent (world_after (Notifications.onRefresh D) s w) = sent w).
Proof.
  intros Hfail. unfold screen_after, world_after.
  split; [|split; [|intros Hnone; split]].
  - destruct (Notifications.fetchOrders D s w) as [[r s'] w'] eqn:Hrun.
    run_history Hrun; try done. destruct Hfail; congruence.
  - destruct (Notifications.onRefresh D s w) as [[r s'] w'] eqn:Hrun.
    run_history Hrun; try done. destruct Hfail; congruence.
  - destruct (Notifications.fetchOrders D s w) as [[r s'] w'] eqn:Hrun.
    run_history Hrun; try done; congruence.
  - destruct (Notifications.onRefresh D s w) as [[r s'] w'] eqn:Hrun.
    run_history Hrun; try done; congruence.
Qed.

Lemma fetchOrders_fetched s w userId :
  session (storage w) = Some userId ->
  hd true (transport w) = true ->
  Notifications.fetchOrders D s w
  = (Return tt,
     Notifications.mkScreen
       (Js.sort (Notifications.compareFn D) (placed_by w userId)) false false,
     with_sent (with_transport w (tl (transport w)))
       ((GetOrders userId, true) :: sent w)).
Proof.
  intros Hsession Hget. unfold placed_by.
  destruct (Notifications.fetchOrders D s w) as [[r s'] w'] eqn:Hrun.
  run_history Hrun; done || congruence.
Qed.

(** X25: a fetch that succeeds shows the orders of the user in the
    store, none lost and none twice, whatever their dates are (a sort
    only moves elements), and nothing of what the screen showed before;
    [onRefresh] shows the same. *)
Theorem fetchOrders_replaces
    (s : Notifications.Screen) (w : World) (userId : string) :
  session (storage w) = Some userId ->
  delivered 1 w ->
  Notifications.orders (screen_after (Notifications.fetchOrders D) s w)
  ≡ₚ placed_by w userId
  /\ (forall s',
        Notifications.orders (screen_after (Notifications.fetchOrders D) s' w)
        = Notifications.orders
            (screen_after (Notifications.fetchOrders D) s w))
  /\ Notifications.orders (screen_after (Notifications.onRefresh D) s w)
     = Notifications.orders (screen_after (Notifications.fetchOrders D) s w)
  /\ sent (world_after (Notifications.fetchOrders D) s w)
     = (GetOrders userId, true) :: sent w.
Proof.
  intros Hsession Hnet. apply delivered_S in Hnet as [Hget _].
  unfold screen_after, world_after.
  rewrite (fetchOrders_fetched s w userId) by done. simpl.
  split; [apply Sorting.sort_perm|]. split; [|split; [|done]].
  - intros s'. by rewrite (fetchOrders_fetched s' w userId).
  - unfold Notifications.onRefresh, Notifications.setRefreshing, bind,
      set_state.
    by rewrite (fetchOrders_fetched _ w userId).
Qed.

(** X26: where the store lists the orders of the user latest first
    already, with valid dates, the screen shows them as they are
    listed. *)
Theorem fetchOrders_latest_first
    (s : Notifications.Screen) (w : World) (userId : string) :
  session (storage w) = Some userId ->
  delivered 1 w ->
  Forall (valid_date D) (placed_by w userId) ->
  descending (time D) (placed_by w userId) ->
  Notifications.orders (screen_after (Notifications.fetchOrders D) s w)
  = placed_by w userId.
Proof.
  intros Hsession Hnet Hvalid Hsorted. apply delivered_S in Hnet as [Hget _].
  unfold screen_after.
  rewrite (fetchOrders_fetched s w userId) by done. simpl.
  eapply SortingMore.sort_sorted; [apply History.compareFn_time|done|done].
Qed.

End date.

Lemma fetchOrders_keeps_orders_witness :
  Notifications.orders
    (screen_after (Notifications.fetchOrders Vietnam.date)
       (Notifications.mkScreen [Sample.first] true false)
       (with_transport Sample.history [false]))
  = [Sample.first].
Proof.
  destruct (fetchOrders_keeps_orders Vietnam.date
              (Notifications.mkScreen [Sample.first] true false)
              (with_transport Sample.history [false]))
    as (H & _).
  - by right.
  - exact H.
Defined.

Lemma fetchOrders_replaces_witness :
  Notifications.orders
    (screen_after (Notifications.fetchOrders Vietnam.date)
       Sample.historyScreen Sample.history)
  ≡ₚ placed_by Sample.history "u1".
Proof.
  destruct (fetchOrders_replaces Vietnam.date Sample.historyScreen
              Sample.history "u1")
    as (H & _).
  - reflexivity.
  - unfold delivered. simpl. constructor.
  - exact H.
Defined.

Lemma fetchOrders_latest_first_witness :
  Notifications.orders
    (screen_after (Notifications.fetchOrders Vietnam.date)
       Sample.historyScreen
       (with_orders Sample.history [Sample.second; Sample.first]))
  = [Sample.second; Sample.first].
Proof.
  apply (fetchOrders_latest_first Vietnam.date Sample.historyScreen
           (with_orders Sample.history [Sample.second; Sample.first]) "u1").
  - reflexivity.
  - unfold delivered. simpl. constructor.
  - repeat constructor.
    + by exists 1714644000000.
    + by exists 1714532400000.
  - repeat constructor. vm_compute. discriminate.
Defined.

End HistoryMore.

Module GroupingMore.
Import Notifications.

#[local] Arguments day : simpl never.

Lemma NoDup_first_seen l : NoDup (first_seen l).
Proof.
  induction l as [|x l IH]; simpl; [constructor|]. constructor.
  - rewrite list_elem_of_filter. by intros [H _].
  - by apply NoDup_filter.
Qed.

Lemma elem_of_keys {V} (o : Js.object V) k v : (k, v) ∈ o -> k ∈ Js.keys o.
Proof.
  intros H. unfold Js.keys. apply list_elem_of_In, in_map_iff.
  exists (k, v). split; [done|]. by apply list_elem_of_In.
Qed.

Lemma get_bucket {V} (o : Js.object V) k v :
  NoDup (Js.keys o) -> (k, v) ∈ o -> Js.get o k = Some v.
Proof.
  induction o as [|[k' v'] o IH]; simpl.
  - intros _ H. by apply elem_of_nil in H.
  - rewrite NoDup_cons. intros [Hnin Hnd] Hin.
    apply elem_of_cons in Hin as [Heq|Hin].
    + simplify_eq. by rewrite String.eqb_refl.
    + destruct (String.eqb_spec k' k) as [->|Hne]; [|by apply IH].
      exfalso. apply Hnin. by eapply elem_of_keys.
Qed.

Section date.
Variable D : Js.Date.

Lemma filter_other k k' (os : list Order.t) :
  k' <> k ->
  filter (fun o => day D o = k') (filter (fun o => ~ day D o = k) os)
  = filter (fun o => day D o = k') os.
Proof.
  intros Hne. induction os as [|o os IH]; [done|].
  rewrite (filter_cons (fun o => ~ day D o = k)).
  destruct (decide (~ day D o = k)) as [Hk|Hk].
  - rewrite !filter_cons, IH. done.
  - rewrite IH, filter_cons, decide_False; [done|].
    intros Heq. apply Hk. congruence.
Qed.

Lemma concat_buckets (g : Js.object (list Order.t)) os :
  NoDup (Js.keys g) ->
  (forall k bucket,
     (k, bucket) ∈ g -> bucket = filter (fun o => day D o = k) os) ->
  (forall o, o ∈ os -> day D o ∈ Js.keys g) ->
  concat (snd <$> g) ≡ₚ os.
Proof.
  revert os. induction g as [|[k b] g IH]; intros os Hnd Hg Hos.
  - destruct os as [|o os]; [done|].
    specialize (Hos o (list_elem_of_here _ _)). by apply elem_of_nil in Hos.
  - simpl in Hnd. apply NoDup_cons in Hnd as [Hnin Hnd].
    rewrite fmap_cons. simpl.
    rewrite (Hg k b (list_elem_of_here _ _)).
    rewrite (IH (filter (fun o => ~ day D o = k) os)); [| done | |].
    + apply filter_app_complement.
    + intros k' b' Hin. rewrite filter_other.
      * apply Hg. by right.
      * intros ->. apply Hnin. by eapply elem_of_keys.
    + intros o [Hne Ho]%list_elem_of_filter.
      specialize (Hos o Ho). simpl in Hos.
      apply elem_of_cons in Hos as [Heq|Hin]; [by symmetry in Heq|done].
Qed.

(** X27: [groupOrdersByDate] splits the orders of the screen, whatever
    their dates are: no day is listed twice, no group is empty, a group
    holds the orders of its day in the order of the list, every order is
    in the groups once, and no day is listed exactly when there is no
    order (the screen then says that there is none). *)
Theorem groupOrdersByDate_partition (os : list Order.t) :
  NoDup (Js.keys (groupOrdersByDate D os))
  /\ (forall k bucket,
        (k, bucket) ∈ groupOrdersByDate D os ->
        bucket <> [] /\ bucket = filter (fun o => day D o = k) os)
  /\ concat (snd <$> groupOrdersByDate D os) ≡ₚ os
  /\ (Js.keys (groupOrdersByDate D os) = [] <-> os = []).
Proof.
  destruct (Grouping.group_spec D os) as [Hkeys Hget].
  assert (NoDup (Js.keys (groupOrdersByDate D os))) as Hnd
    by (rewrite Hkeys; apply NoDup_first_seen).
  assert (forall k bucket,
            (k, bucket) ∈ groupOrdersByDate D os ->
            k ∈ day D <$> os
            /\ bucket = filter (fun o => day D o = k) os) as Hbucket.
  { intros k bucket Hin. apply (get_bucket _ _ _ Hnd) in Hin.
    rewrite Hget in Hin. destruct (decide (k ∈ day D <$> os)); [|done].
    by simplify_eq. }
  split; [done|]. split; [|split].
  - intros k bucket Hin. destruct (Hbucket k bucket Hin) as [Hk ->].
    split; [|done]. apply list_elem_of_fmap in Hk as (o & -> & Ho).
    intros Hnil.
    assert (o ∈ filter (fun o' => day D o' = day D o) os) as Hin'
      by (by apply list_elem_of_filter).
    rewrite Hnil in Hin'. by apply elem_of_nil in Hin'.
  - apply concat_buckets; [done| |].
    + intros k bucket Hin. by destruct (Hbucket k bucket Hin).
    + intros o Ho. rewrite Hkeys. apply Grouping.elem_of_first_seen.
      by apply list_elem_of_fmap_2.
  - rewrite Hkeys. split; [|by intros ->]. by destruct os.
Qed.

Lemma day_undated o : undated D o -> day D o = "NaN/NaN/NaN".
Proof. unfold undated, day, formatDate. by intros ->. Qed.

Lemma toString_head z :
  exists c r, Js.toString (Js.Num z) = String c r /\ c <> "N"%char.
Proof.
  unfold Js.toString. destruct (z <? 0) eqn:Hz.
  - by exists "-"%char, (Js.digits_string (- z)).
  - destruct (Prices.to_digits_spec z) as (_ & Hds & Hne); [lia|].
    unfold Js.digits_string.
    destruct (Js.to_digits z) as [|d ds]; [done|].
    apply Forall_cons in Hds as [Hd _].
    exists (Js.digit_char d), (dstr ds). split; [done|].
    Prices.digit_cases d H; discriminate.
Qed.

Lemma day_dated o : valid_date D o -> day D o <> "NaN/NaN/NaN".
Proof.
  unfold valid_date, dated, day, formatDate. intros [t ->].
  cbn [Js.getDate].
  destruct (toString_head (Js.local D t).2) as (c & r & -> & Hc).
  intros Heq. apply Hc.
  change (String c r +:+ ?x) with (String c (r +:+ x)) in Heq. congruence.
Qed.

Lemma undated_or_valid o : undated D o \/ valid_date D o.
Proof.
  unfold undated, valid_date, dated.
  destruct (Js.parse D (Order.orderDate o)) as [|t]; [by left|].
  right. by exists t.
Qed.

Lemma filter_undated (os : list Order.t) :
  filter (fun o => day D o = "NaN/NaN/NaN") os = filter (undated D) os.
Proof.
  induction os as [|o os IH]; [done|]. rewrite !filter_cons, IH.
  destruct (undated_or_valid o) as [Ho|Ho].
  - by rewrite !decide_True by (done || by apply day_undated).
  - rewrite !decide_False; [done| |by apply day_dated].
    destruct Ho as [t Ht]. unfold undated, dated in *. congruence.
Qed.

(** X28: an order whose date is not a valid date is not left out: all
    such orders are in one group, under the day [NaN/NaN/NaN], in the
    order of the list, and no other group holds one. *)
Theorem groupOrdersByDate_undated (os : list Order.t) (o : Order.t) :
  o ∈ os ->
  undated D o ->
  Js.get (groupOrdersByDate D os) "NaN/NaN/NaN"
  = Some (filter (undated D) os)
  /\ (forall k bucket,
        (k, bucket) ∈ groupOrdersByDate D os ->
        k <> "NaN/NaN/NaN" -> Forall (valid_date D) bucket).
Proof.
  intros Ho Hund. destruct (Grouping.group_spec D os) as [Hkeys Hget].
  split.
  - rewrite Hget, decide_True, filter_undated; [done|].
    rewrite <- (day_undated o Hund). by apply list_elem_of_fmap_2.
  - intros k bucket Hin Hk.
    assert (NoDup (Js.keys (groupOrdersByDate D os))) as Hnd
      by (rewrite Hkeys; apply NoDup_first_seen).
    apply (get_bucket _ _ _ Hnd) in Hin. rewrite Hget in Hin.
    destruct (decide (k ∈ day D <$> os)); [|done]. simplify_eq.
    apply Forall_forall. intros o' [Hday _]%list_elem_of_filter.
    destruct (undated_or_valid o') as [Ho'|Ho']; [|done].
    apply day_undated in Ho'. congruence.
Qed.

End date.

Lemma groupOrdersByDate_undated_witness :
  Js.get
    (groupOrdersByDate Vietnam.date
       [Sample.first; Sample.order "ord-4" "soon"; Sample.second;
        Sample.order "ord-5" ""])
    "NaN/NaN/NaN"
  = Some [Sample.order "ord-4" "soon"; Sample.order "ord-5" ""].
Proof.
  destruct (groupOrdersByDate_undated Vietnam.date
              [Sample.first; Sample.order "ord-4" "soon"; Sample.second;
               Sample.order "ord-5" ""]
              (Sample.order "ord-4" "soon"))
    as [H _].
  - right. left.
  - reflexivity.
  - exact H.
Defined.

End GroupingMore.

(** ** From the checkout to the history *)

Module Placed.

#[local] Arguments Js.sort : simpl never.
#[local] Arguments filter : simpl never.
#[local] Arguments Checkout.newOrder : simpl never.

Section date.
Variable D : Js.Date.

(** X29: once the request that creates the order is delivered, the
    order is in the history the next time the history screen fetches the
    orders with success, whether the cart was cleared or not. *)
Theorem placed_order_in_history
    (separator : string) (s : Checkout.Screen) (w : World) (userId : string)
    (info : UserInfo.t) (h : Notifications.Screen) :
  ~ whitespace_only (Checkout.address s) ->
  session (storage w) = Some userId ->
  Checkout.userInfo s = Some info ->
  hd true (transport w) = true ->
  hd true (tl (tl (transport w))) = true ->
  Checkout.newOrder separator s userId info (clock w) (random w) (isoClock w)
  ∈ Notifications.orders
      (screen_after (Notifications.fetchOrders D) h
         (world_after (Checkout.handlePlaceOrder separator) s w)).
Proof.
  intros Haddr Hsession Hinfo Hpost Hget.
  apply CheckoutMore.not_blank in Haddr.
  assert (exists w',
            world_after (Checkout.handlePlaceOrder separator) s w = w'
            /\ storage w' = storage w
            /\ transport w' = tl (tl (transport w))
            /\ orders w'
               = orders w
                 ++ [Checkout.newOrder separator s userId info (clock w)
                       (random w) (isoClock w)]) as (w' & -> & Hs & Ht & Ho).
  { unfold world_after.
    destruct (Checkout.handlePlaceOrder separator s w) as [[r s'] w'] eqn:Hrun.
    exists w'. split; [done|].
    CheckoutMore.run_checkout Hrun; try congruence; by repeat split. }
  unfold screen_after.
  rewrite (HistoryMore.fetchOrders_fetched D h w' userId) by congruence.
  simpl. rewrite Sorting.sort_perm. unfold placed_by. rewrite Ho.
  apply list_elem_of_filter. split; [done|].
  apply elem_of_app. right. left.
Qed.

End date.

Lemma placed_order_in_history_witness :
  Checkout.newOrder Vietnam.separator Sample.checkout "u1" Sample.lanInfo
    (clock Sample.world) (random Sample.world) (isoClock Sample.world)
  ∈ Notifications.orders
      (screen_after (Notifications.fetchOrders Vietnam.date)
         Sample.historyScreen
         (world_after (Checkout.handlePlaceOrder Vietnam.separator)
            Sample.checkout (with_transport Sample.world [true; false]))).
Proof.
  apply (placed_order_in_history Vietnam.date Vietnam.separator
           Sample.checkout (with_transport Sample.world [true; false])
           "u1" Sample.lanInfo Sample.historyScreen).
  - intros H. apply Blank.trim_blank in H. discriminate.
  - reflexivity.
  - reflexivity.
  - reflexivity.
  - reflexivity.
Defined.

End Placed.

(** ** The order summary *)

Module Summary.
Import Checkout.



End Summary.
